(** * feed_generator: replaying a historical CSV as an append-only live feed

    A shallow embedding of [feed_generator.py].

    - Python floats are idealised as rationals ([Q]); rounding, infinities
      and NaN are outside the model.  Equality of delays is [Qeq].
    - A CSV file is the sequence of records that the [csv] module reads
      from it or writes to it; quoting and line terminators belong to the
      [csv] module and are not modelled.
    - The interpreter's world is the file system (path to records) and a
      chronological trace of the effects performed so far: prints,
      directory creation, opening for writing, appended records, flushes,
      syncs and calls of [time.sleep].
    - Exceptions are explicit: a computation returns a value or raises.
      File operations on the paths of the model succeed; [time.sleep] may
      refuse a duration.
    - The builtins [float] and [str], and the limit of [time.sleep], are
      parameters of the development. *)

From Stdlib Require Import QArith Qminmax Lqa Ascii String.
From stdpp Require Import gmap strings list.

Local Open Scope Z_scope.

(** ** Python builtins used by the script *)

Definition Qltb (a b : Q) : bool := negb (Qle_bool b a).

(** [max(a, b)] on two arguments keeps [a] unless [b > a]. *)
Definition py_max (a b : Q) : Q := if Qltb a b then b else a.

(** Code points that [str.strip()] removes (those below 256). *)
Definition py_isspace (c : ascii) : bool :=
  let n := nat_of_ascii c in
  ((9 <=? n) && (n <=? 13) || (28 <=? n) && (n <=? 32)
   || (n =? 133) || (n =? 160))%nat.

Fixpoint lstrip (s : string) : string :=
  match s with
  | EmptyString => EmptyString
  | String c s' => if py_isspace c then lstrip s' else s
  end.

Definition strip (s : string) : string :=
  String.rev (lstrip (String.rev (lstrip s))).

(** Exceptions that can occur while the script runs. *)
Inductive exn :=
| ValueError (msg : string)
| FileNotFoundError (path : string)
| IndexError
| AttributeError
| OverflowError.

Inductive outcome (A : Type) :=
| Ret (a : A)
| Raise (e : exn).
Arguments Ret {A} a.
Arguments Raise {A} e.

(** ** Dictionaries, as [csv.DictReader] builds them

    Keys are column names, or [None] (the reader's default [restkey]).
    Values are strings, [None] (the reader's default [restval]) or the
    list of surplus fields stored under the rest key.  A dict keeps
    insertion order; assigning to an existing key keeps its position. *)

Definition key := option string.

Inductive cell :=
| CStr (s : string)
| CNone
| CList (l : list string).

Definition pydict := list (key * cell).

Fixpoint dict_set (d : pydict) (k : key) (v : cell) : pydict :=
  match d with
  | [] => [(k, v)]
  | (k', v') :: d' =>
      if decide (k' = k) then (k, v) :: d' else (k', v') :: dict_set d' k v
  end.

Definition dict_of_pairs (kvs : list (key * cell)) : pydict :=
  foldl (λ d kv, dict_set d kv.1 kv.2) [] kvs.

Fixpoint dict_lookup (d : pydict) (k : key) : option cell :=
  match d with
  | [] => None
  | (k', v) :: d' => if decide (k' = k) then Some v else dict_lookup d' k
  end.

(** [d.get(k, dflt)] *)
Definition dict_get (d : pydict) (k : key) (dflt : cell) : cell :=
  default dflt (dict_lookup d k).

Definition dict_keys (d : pydict) : list key := d.*1.

(** ** The world: files and the trace of effects *)

Inductive message :=
| MsgSpeed                       (* ERROR: --speed must be > 0. *)
| MsgNotFound (input : string)   (* ERROR: input file not found: ... *)
| MsgReadFailed (e : exn)        (* ERROR: failed reading input CSV: ... *)
| MsgNoTime                      (* ERROR: expected a 'time' column ... *)
| MsgStarting (input output : string) (speed : Q)
| MsgEnd.                        (* Reached end of input. Exiting. *)

Inductive event :=
| Stderr (m : message)
| Stdout (m : message)
| Mkdir (p : string)                   (* parent directories of [p] *)
| OpenW (p : string)                   (* create or truncate *)
| WriteRec (p : string) (r : list string) (* one record appended *)
| Flush (p : string)
| Fsync (p : string)
| Sleep (d : Q).                       (* [time.sleep d] was called *)

Record world := World {
  files : gmap string (list (list string));
  trace : list event
}.

Definition log (e : event) (w : world) : world :=
  World (files w) (trace w ++ [e]).

(** State and exception monad over the world. *)
Definition M (A : Type) : Type := world → outcome A * world.

#[export] Instance M_ret : MRet M := λ A a w, (Ret a, w).
#[export] Instance M_bind : MBind M := λ A B f m w,
  match m w with
  | (Ret a, w') => f a w'
  | (Raise e, w') => (Raise e, w')
  end.

Definition raise {A} (e : exn) : M A := λ w, (Raise e, w).

Definition lift {A} (o : outcome A) : M A := λ w, (o, w).

(** [try: m  except Exception as e: ...] *)
Definition try_except {A} (m : M A) : M (A + exn) := λ w,
  match m w with
  | (Ret a, w') => (Ret (inl a), w')
  | (Raise e, w') => (Ret (inr e), w')
  end.

Definition emit (e : event) : M unit := λ w, (Ret tt, log e w).

Definition print_err (m : message) : M unit := emit (Stderr m).
Definition print_out (m : message) : M unit := emit (Stdout m).

Definition path_exists (p : string) : M bool := λ w,
  (Ret (bool_decide (is_Some (files w !! p))), w).

(** [path.open("r")] followed by [csv.reader]: the records of the file. *)
Definition open_read (p : string) : M (list (list string)) := λ w,
  match files w !! p with
  | Some recs => (Ret recs, w)
  | None => (Raise (FileNotFoundError p), w)
  end.

(** [path.open("w")]: the file exists and is empty afterwards. *)
Definition open_write (p : string) : M unit := λ w,
  (Ret tt, World (<[p := []]> (files w)) (trace w ++ [OpenW p])).

Definition write_record (p : string) (r : list string) : M unit := λ w,
  (Ret tt, World (alter (λ c, c ++ [r]) p (files w)) (trace w ++ [WriteRec p r])).

Definition flush (p : string) : M unit := emit (Flush p).
Definition fsync (p : string) : M unit := emit (Fsync p).

(** ** csv.DictReader *)

(** The [fieldnames] property: the first record, [None] on an empty file. *)
Definition reader_fieldnames (recs : list (list string)) : option (list string) :=
  head recs.

(** One step of [DictReader.__next__] on a non-blank record. *)
Definition reader_row (fieldnames row : list string) : pydict :=
  let d := dict_of_pairs (zip (Some <$> fieldnames) (CStr <$> row)) in
  let lf := length fieldnames in
  let lr := length row in
  if (lf <? lr)%nat then dict_set d None (CList (drop lf row))
  else if (lr <? lf)%nat then
    foldl (λ d k, dict_set d (Some k) CNone) d (drop lr fieldnames)
  else d.

(** [while row == []: row = next(self.reader)]: blank records are skipped. *)
Definition nonblank (recs : list (list string)) : list (list string) :=
  filter (λ r, r ≠ []) recs.

(** [list(reader)] once the header is consumed. *)
Definition reader_rows (fieldnames : list string) (recs : list (list string))
  : list pydict :=
  reader_row fieldnames <$> nonblank recs.

(** ** A decimal reader, used to run the model on concrete files

    It reads an optional sign, digits and an optional fraction, on which
    it agrees with [float].  It rejects every other string, also those
    that [float] reads (exponents, a leading point, inf, nan): the
    concrete files below hold plain decimals and text that [float]
    rejects as well. *)

Definition digit_of (c : ascii) : option Z :=
  let n := nat_of_ascii c in
  if ((48 <=? n) && (n <=? 57))%nat then Some (Z.of_nat n - 48) else None.

Fixpoint read_digits (s : string) (acc : Z) (scale : positive)
  : option (Z * positive * string) :=
  match s with
  | EmptyString => Some (acc, scale, EmptyString)
  | String c s' =>
      match digit_of c with
      | Some d => read_digits s' (10 * acc + d) (10 * scale)%positive
      | None => Some (acc, scale, s)
      end
  end.

Definition read_unsigned (s : string) : option Q :=
  match s with
  | EmptyString => None
  | String c _ =>
      match digit_of c with
      | None => None
      | Some _ =>
          match read_digits s 0 1 with
          | Some (n, _, EmptyString) => Some (inject_Z n)
          | Some (n, _, String "." frac) =>
              match read_digits frac 0 1 with
              | Some (m, sc, EmptyString) => Some (inject_Z n + (m # sc))%Q
              | _ => None
              end
          | _ => None
          end
      end
  end.

Definition decimal_float (s : string) : option Q :=
  match s with
  | String "-" s' => Qopp <$> read_unsigned s'
  | String "+" s' => read_unsigned s'
  | _ => read_unsigned s
  end.

(** [str] of a list of strings that need no escaping. *)
Definition show_list (l : list string) : string :=
  "[" +:+ String.concat ", " ((λ s, "'" +:+ s +:+ "'") <$> l) +:+ "]".

(** [time.sleep] on a platform without a limit, and with one. *)
Definition sleep_always (d : Q) : bool := true.

Definition sleep_within (limit d : Q) : bool := Qle_bool d limit.

(** The parsed command line: [--input], [--output], [--speed].  Paths are
    taken as already normalised names of files. *)
Record Args := {
  input : string;
  output : string;
  speed : Q
}.

(** ** Concrete inputs

    The scenario of the specification: three rows at times 0, 1 and 3,
    and an output that already holds a stale record. *)

Definition demo_header : list string := ["time"; "ch1"].

Definition demo_rows : list (list string) := [["0"; "1"]; ["1"; "2"]; ["3"; "3"]].

Definition demo_world : world :=
  World (<["data/historical.csv" := demo_header :: demo_rows]>
           (<["data/live.csv" := [["stale"; "record"]]]> ∅)) [].

Definition demo_args (s : Q) : Args :=
  {| input := "data/historical.csv"; output := "data/live.csv"; speed := s |}.

(** A dataset whose second row has an unreadable time. *)
Definition gappy_rows : list (list string) :=
  [["0"; "1"]; ["n/a"; "2"]; ["3"; "3"]; ["5"; "4"]].

Definition gappy_world : world :=
  World (<["data/historical.csv" := demo_header :: gappy_rows]> ∅) [].




Section Replayer.

(** The [float] constructor on a stripped, non-empty string; [None]
    stands for its [ValueError]. *)
Variable py_float : string → option Q.

(** [str] of a list of strings, which is what [csv.writer] writes for a
    cell that holds a list. *)
Variable py_str_list : list string → string.

(** Whether [time.sleep d] returns; it raises [OverflowError] when [d]
    does not fit the platform's timestamp. *)
Variable time_sleep_ok : Q → bool.

(** ** csv.DictWriter *)

(** What [csv.writer] writes for a cell. *)
Definition cell_text (c : cell) : string :=
  match c with
  | CStr s => s
  | CNone => ""
  | CList l => py_str_list l
  end.

Definition key_cell (k : key) : cell :=
  match k with
  | Some s => CStr s
  | None => CNone
  end.

(** [DictWriter._dict_to_list] with [extrasaction="raise"], [restval=""]. *)
Definition dict_to_list (fieldnames : list key) (rowdict : pydict)
  : outcome (list cell) :=
  let wrong_fields := filter (λ k, k ∉ fieldnames) (dict_keys rowdict) in
  match wrong_fields with
  | [] => Ret ((λ k, dict_get rowdict k (CStr "")) <$> fieldnames)
  | _ => Raise (ValueError "dict contains fields not in fieldnames")
  end.

Definition writer_writerow (out : string) (fieldnames : list key)
    (rowdict : pydict) : M unit :=
  cells ← lift (dict_to_list fieldnames rowdict);
  write_record out (cell_text <$> cells).

Definition writer_writeheader (out : string) (fieldnames : list key) : M unit :=
  let header := dict_of_pairs (zip fieldnames (key_cell <$> fieldnames)) in
  writer_writerow out fieldnames header.

(** ** The script's functions *)

Definition ensure_parent_dir (path : string) : M unit := emit (Mkdir path).

Definition read_all_rows (path : string) : M (list pydict) :=
  recs ← open_read path;
  match reader_fieldnames recs with
  | None | Some [] => raise (ValueError "Input CSV has no header.")
  | Some fieldnames =>
      let rows := reader_rows fieldnames (tail recs) in
      match rows with
      | [] => raise (ValueError "Input CSV has no data rows.")
      | _ => mret rows
      end
  end.

Definition safe_float (x : cell) : outcome (option Q) :=
  match x with
  | CNone => Ret None
  | CStr x =>
      let x := strip x in
      if decide (x = "") then Ret None else Ret (py_float x)
  | CList _ => Raise AttributeError
  end.

Definition compute_sleep_s (prev_time curr_time : option Q) (speed : Q) : Q :=
  match prev_time, curr_time with
  | Some prev_time, Some curr_time =>
      let dt := py_max 0 (curr_time - prev_time) in
      (dt / py_max (1 # 1000000000) speed)%Q
  | _, _ => 0%Q
  end.

Definition time_sleep (d : Q) : M unit :=
  emit (Sleep d);;
  if time_sleep_ok d then mret tt else raise OverflowError.

(** The body of [for row in rows], with [prev_t] threaded through. *)
Fixpoint replay_rows (out : string) (fieldnames : list key) (speed : Q)
    (rows : list pydict) (prev_t : option Q) : M unit :=
  match rows with
  | [] => mret tt
  | row :: rows' =>
      curr_t ← lift (safe_float (dict_get row (Some "time") CNone));
      let sleep_s := compute_sleep_s prev_t curr_t speed in
      (if Qltb 0 sleep_s then time_sleep sleep_s else mret tt);;
      writer_writerow out fieldnames row;;
      flush out;;
      fsync out;;
      replay_rows out fieldnames speed rows' curr_t
  end.

Definition main (args : Args) : M Z :=
  if Qle_bool (speed args) 0 then
    print_err MsgSpeed;; mret 2
  else
    let input_path := input args in
    let output_path := output args in
    ex ← path_exists input_path;
    if negb ex then
      print_err (MsgNotFound input_path);; mret 2
    else
      ensure_parent_dir output_path;;
      r ← try_except (read_all_rows input_path);
      match r with
      | inr e => print_err (MsgReadFailed e);; mret 2
      | inl rows =>
          row0 ← match rows with
                 | [] => raise IndexError
                 | row0 :: _ => mret row0
                 end;
          let fieldnames := dict_keys row0 in
          if bool_decide (Some "time"%string ∉ fieldnames) then
            print_err MsgNoTime;; mret 2
          else
            open_write output_path;;
            writer_writeheader output_path fieldnames;;
            flush output_path;;
            fsync output_path;;
            print_out (MsgStarting input_path output_path (speed args));;
            replay_rows output_path fieldnames (speed args) rows None;;
            print_out MsgEnd;;
            mret 0
      end.

(** ** Vocabulary of the statements *)

(** A dataset as the specification defines it: unique column names, the
    pacing column among them, at least one row, every row as long as the
    header. *)
Definition valid_dataset (hdr : list string) (recs : list (list string)) : Prop :=
  NoDup hdr ∧ "time"%string ∈ hdr ∧ recs ≠ [] ∧
  Forall (λ r, length r = length hdr) recs.

(** The field names and the row that [DictReader] builds from a header
    and a record of the same length, when the column names are unique. *)
Definition columns (hdr : list string) : list key := Some <$> hdr.

Definition row_of (hdr r : list string) : pydict :=
  zip (columns hdr) (CStr <$> r).

(** The records that a trace appends to [p], oldest first. *)
Fixpoint written (p : string) (evs : list event) : list (list string) :=
  match evs with
  | [] => []
  | WriteRec q r :: evs' =>
      if decide (q = p) then r :: written p evs' else written p evs'
  | _ :: evs' => written p evs'
  end.

(** Events that change or create a file. *)
Definition touches_file (e : event) : bool :=
  match e with
  | OpenW _ | WriteRec _ _ => true
  | _ => false
  end.

Definition is_sleep (e : event) : bool :=
  match e with
  | Sleep _ => true
  | _ => false
  end.

(** Every [time.sleep] call in the trace is for a positive duration. *)
Definition sleeps_positive (evs : list event) : Prop :=
  ∀ d, Sleep d ∈ evs → (0 < d)%Q.

(** The trace of emitting one row without pacing. *)
Definition row_events (out : string) (r : list string) : list event :=
  [WriteRec out r; Flush out; Fsync out].

(** Every record appended in the trace is at once flushed and synced. *)
Inductive durable : list event → Prop :=
| durable_nil : durable []
| durable_row p r evs : durable evs → durable (row_events p r ++ evs)
| durable_skip e evs :
    (∀ p r, e ≠ WriteRec p r) → durable evs → durable (e :: evs).

(** A pacing cell that carries no number: the key is missing or holds
    [None], or the string is blank, or [float] rejects it. *)
Definition no_pacing_value (x : cell) : Prop :=
  x = CNone ∨ ∃ s, x = CStr s ∧ (strip s = ""%string ∨ py_float (strip s) = None).

(** The trace of a run that stops on a diagnostic: the speed check comes
    first, then whatever preceded the diagnostic [m]. *)
Definition abort_trace (args : Args) (pre : list event) (m : message)
  : list event :=
  if Qle_bool (speed args) 0 then [Stderr MsgSpeed] else pre ++ [Stderr m].

(** What [writerow] appends for a row (nothing when it raises). *)
Definition row_text (fieldnames : list key) (row : pydict) : list string :=
  match dict_to_list fieldnames row with
  | Ret cells => cell_text <$> cells
  | Raise _ => []
  end.

(** What [writeheader] appends under the given field names. *)
Definition header_text (fieldnames : list key) : list string :=
  row_text fieldnames (dict_of_pairs (zip fieldnames (key_cell <$> fieldnames))).

(** The pacing pause before a row, as a trace. *)
Definition pause_events (d : Q) : list event :=
  if Qltb 0 d then [Sleep d] else [].

(** ** Vocabulary of the further properties *)



(** What a trace prints on each stream. *)
Definition stdout_of (evs : list event) : list message :=
  omap (λ e, match e with Stdout m => Some m | _ => None end) evs.

Definition stderr_of (evs : list event) : list message :=
  omap (λ e, match e with Stderr m => Some m | _ => None end) evs.

(** [safe_float(row.get("time"))], the pacing value of a row. *)
Definition row_time (row : pydict) : outcome (option Q) :=
  safe_float (dict_get row (Some "time"%string) CNone).

(** Strings made of characters that [strip] removes. *)
Fixpoint all_space (s : string) : bool :=
  match s with
  | EmptyString => true
  | String c s' => py_isspace c && all_space s'
  end.


(** What every dict built by [DictReader] keeps: no key twice, and under
    a column name a string or [None], never a list. *)
Definition reader_dict (d : pydict) : Prop :=
  NoDup (dict_keys d) ∧ ∀ c l, dict_lookup d (Some c) ≠ Some (CList l).


(** Unfolds the monad and its primitive effects. *)
Ltac run_m :=
  unfold writer_writeheader, writer_writerow, time_sleep, ensure_parent_dir,
    print_err, print_out, flush, fsync, write_record, open_write, emit,
    raise, lift, try_except, log;
  unfold mbind, M_bind, mret, M_ret; cbn [files trace].

(** ** Arithmetic of the delay *)

Lemma Qltb_lt a b : Qltb a b = true ↔ (a < b)%Q.
Proof.
  unfold Qltb. rewrite negb_true_iff, <- not_true_iff_false, Qle_bool_iff.
  split; [apply Qnot_le_lt | apply Qlt_not_le].
Qed.

Lemma Qltb_ge a b : Qltb a b = false ↔ (b <= a)%Q.
Proof.
  unfold Qltb. rewrite negb_false_iff. apply Qle_bool_iff.
Qed.

Lemma py_max_Qmax a b : (py_max a b == Qmax a b)%Q.
Proof.
  unfold py_max. destruct (Qltb a b) eqn:E.
  - apply Qltb_lt in E. symmetry. apply Q.max_r. lra.
  - apply Qltb_ge in E. symmetry. apply Q.max_l. exact E.
Qed.

Lemma py_max_nonneg b : (0 <= py_max 0 b)%Q.
Proof.
  unfold py_max. destruct (Qltb 0 b) eqn:E; [|lra].
  apply Qltb_lt in E. lra.
Qed.

Lemma py_max_floor s : ((1 # 1000000000) <= py_max (1 # 1000000000) s)%Q.
Proof.
  unfold py_max. destruct (Qltb _ s) eqn:E; [|lra].
  apply Qltb_lt in E. lra.
Qed.

Lemma py_max_of_neg b : (b < 0)%Q → py_max 0 b = 0%Q.
Proof.
  intros H. unfold py_max. destruct (Qltb 0 b) eqn:E; [|reflexivity].
  apply Qltb_lt in E. lra.
Qed.

Lemma py_max_above a s : (a <= s)%Q → (py_max a s == s)%Q.
Proof.
  intros H. rewrite py_max_Qmax. apply Q.max_r. exact H.
Qed.

Lemma py_max_below a s : (s < a)%Q → py_max a s = a.
Proof.
  intros H. unfold py_max. destruct (Qltb a s) eqn:E; [|reflexivity].
  apply Qltb_lt in E. lra.
Qed.

Lemma compute_sleep_s_nonneg prev curr s : (0 <= compute_sleep_s prev curr s)%Q.
Proof.
  unfold compute_sleep_s. destruct prev as [p|], curr as [c|]; try lra.
  cbv zeta. apply Qle_shift_div_l.
  - pose proof (py_max_floor s). lra.
  - pose proof (py_max_nonneg (c - p)). lra.
Qed.

(** C1 as stated fails for a speed below the floor of the divisor: with
    pacing values 0 and 1 and speed 1e-10 the delay is 1e9, not 1e10. *)
Lemma delay_formula_fails_below_floor :
  (0 < 1 # 10000000000)%Q ∧
  ¬ (compute_sleep_s (Some 0%Q) (Some 1%Q) (1 # 10000000000)
     == Qmax 0 (1 - 0) / (1 # 10000000000))%Q.
Proof.
  split; [reflexivity|]. vm_compute. discriminate.
Qed.

(** C1 (amended): for a speed s > 0 and both pacing values present, the
    delay is max(0, current - previous) / s when s is at least 1e-9 and
    max(0, current - previous) / 1e-9 when s is below 1e-9; when either
    pacing value is absent the delay is exactly 0. *)
Theorem delay_formula_clamped (prev_time curr_time : option Q) (s : Q) :
  (0 < s)%Q →
  match prev_time, curr_time with
  | Some p, Some c =>
      ((1 # 1000000000 <= s)%Q →
        (compute_sleep_s (Some p) (Some c) s == Qmax 0 (c - p) / s)%Q) ∧
      ((s < 1 # 1000000000)%Q →
        (compute_sleep_s (Some p) (Some c) s
         == Qmax 0 (c - p) / (1 # 1000000000))%Q)
  | _, _ => compute_sleep_s prev_time curr_time s = 0%Q
  end.
Proof.
  intros Hs. destruct prev_time as [p|], curr_time as [c|]; try reflexivity.
  unfold compute_sleep_s; cbv zeta. split; intros H.
  - rewrite (py_max_Qmax 0 (c - p)), (py_max_above _ s H). reflexivity.
  - rewrite (py_max_Qmax 0 (c - p)), (py_max_below _ s H). reflexivity.
Qed.

(** C8: for present pacing values t1 and t2, the delay at speed 2.0 is the
    delay at speed 1.0 divided by 2. *)
Theorem speed_two_halves_delay (t1 t2 : Q) :
  (compute_sleep_s (Some t1) (Some t2) 2
   == compute_sleep_s (Some t1) (Some t2) 1 / 2)%Q.
Proof.
  unfold compute_sleep_s; cbv zeta.
  change (py_max (1 # 1000000000) 2) with 2%Q.
  change (py_max (1 # 1000000000) 1) with 1%Q.
  field.
Qed.

(** ** Running the monad *)

(** One iteration of the loop, effect by effect. *)
Lemma replay_rows_cons out fieldnames s row rows prev w :
  replay_rows out fieldnames s (row :: rows) prev w =
  match safe_float (dict_get row (Some "time"%string) CNone) with
  | Raise e => (Raise e, w)
  | Ret curr =>
      let d := compute_sleep_s prev curr s in
      let tr := if Qltb 0 d then trace w ++ [Sleep d] else trace w in
      if Qltb 0 d && negb (time_sleep_ok d)
      then (Raise OverflowError, World (files w) tr)
      else
        match dict_to_list fieldnames row with
        | Raise e => (Raise e, World (files w) tr)
        | Ret cells =>
            replay_rows out fieldnames s rows curr
              (World (alter (λ c, c ++ [cell_text <$> cells]) out (files w))
                     (((tr ++ [WriteRec out (cell_text <$> cells)])
                        ++ [Flush out]) ++ [Fsync out]))
        end
  end.
Proof.
  cbn [replay_rows]. run_m.
  destruct (safe_float _) as [curr|e]; [|reflexivity].
  cbv zeta. destruct (Qltb 0 _) eqn:Hd; cbn [andb negb].
  - run_m. destruct (time_sleep_ok _); cbn [negb]; [|reflexivity].
    destruct (dict_to_list fieldnames row); reflexivity.
  - destruct w as [fs tr]. cbn [files trace].
    destruct (dict_to_list fieldnames row); reflexivity.
Qed.

(** C5: with a speed s <= 0 the program returns exit code 2 at once: the
    only effect is the diagnostic on the error stream; no file is created,
    truncated or written and no row is processed. *)
Theorem nonpositive_speed_rejected (args : Args) (w : world) :
  (speed args <= 0)%Q →
  main args w = (Ret 2, World (files w) (trace w ++ [Stderr MsgSpeed])).
Proof.
  intros Hs. unfold main. apply Qle_bool_iff in Hs. rewrite Hs. reflexivity.
Qed.

(** ** The loop *)

Lemma written_app p evs1 evs2 :
  written p (evs1 ++ evs2) = written p evs1 ++ written p evs2.
Proof.
  induction evs1 as [|e evs1 IH]; [reflexivity|].
  destruct e; cbn [app written]; try exact IH.
  destruct (decide (p0 = p)); [|exact IH]. now rewrite IH.
Qed.

Lemma written_row_events p r : written p (row_events p r) = [r].
Proof. cbn. now rewrite decide_True. Qed.

Lemma sleeps_positive_nil : sleeps_positive [].
Proof. intros d Hd. now apply elem_of_nil in Hd. Qed.

Lemma sleeps_positive_app evs1 evs2 :
  sleeps_positive evs1 → sleeps_positive evs2 → sleeps_positive (evs1 ++ evs2).
Proof.
  intros H1 H2 d Hd. apply elem_of_app in Hd as [Hd|Hd]; [apply H1|apply H2]; exact Hd.
Qed.

Lemma sleeps_positive_quiet evs :
  Forall (λ e, is_sleep e = false) evs → sleeps_positive evs.
Proof.
  intros H d Hd. rewrite Forall_forall in H. apply H in Hd. discriminate.
Qed.

Lemma sleeps_positive_one d : (0 < d)%Q → sleeps_positive [Sleep d].
Proof.
  intros H d' Hd'. apply list_elem_of_singleton in Hd'. now inversion Hd'; subst.
Qed.

Lemma durable_app evs1 evs2 :
  durable evs1 → durable evs2 → durable (evs1 ++ evs2).
Proof.
  intros H1 H2. induction H1 as [|p r evs _ IH|e evs He _ IH].
  - exact H2.
  - rewrite <- app_assoc. now apply durable_row.
  - cbn [app]. now apply durable_skip.
Qed.

Lemma durable_pause d : durable (pause_events d).
Proof.
  unfold pause_events. destruct (Qltb 0 d); [|constructor].
  apply durable_skip; [discriminate|constructor].
Qed.

Lemma alter_append_nil (p : string) (fs : gmap string (list (list string))) :
  alter (λ c, c ++ []) p fs = fs.
Proof. apply alter_id. intros c _. apply app_nil_r. Qed.

Lemma alter_append_twice (p : string) (fs : gmap string (list (list string))) a b :
  alter (λ c, c ++ b) p (alter (λ c, c ++ a) p fs) = alter (λ c, c ++ (a ++ b)) p fs.
Proof.
  rewrite alter_alter_eq. apply alter_ext. intros c _. cbn.
  symmetry. apply app_assoc.
Qed.

Lemma row_text_ret fieldnames row cells :
  dict_to_list fieldnames row = Ret cells →
  row_text fieldnames row = cell_text <$> cells.
Proof. intros H. unfold row_text. now rewrite H. Qed.

Lemma pause_events_positive d : sleeps_positive (pause_events d).
Proof.
  unfold pause_events. destruct (Qltb 0 d) eqn:E.
  - apply sleeps_positive_one. now apply Qltb_lt.
  - apply sleeps_positive_nil.
Qed.

Lemma pause_events_quiet d : Forall (λ e, touches_file e = false) (pause_events d).
Proof.
  unfold pause_events. destruct (Qltb 0 d); repeat constructor.
Qed.

Lemma written_pause p d : written p (pause_events d) = [].
Proof. unfold pause_events. now destruct (Qltb 0 d). Qed.

(** The loop only appends to the output: it writes the text of a prefix
    of the rows (all of them when it returns), never opens a file, and
    sleeps for positive durations only. *)
Lemma replay_rows_effects out fieldnames s rows :
  ∀ prev w, ∃ (k : nat) (evs : list event),
    (replay_rows out fieldnames s rows prev w).2
      = World (alter (λ c, c ++ written out evs) out (files w)) (trace w ++ evs)
    ∧ written out evs = take k (row_text fieldnames <$> rows)
    ∧ ((replay_rows out fieldnames s rows prev w).1 = Ret tt → k = length rows)
    ∧ sleeps_positive evs
    ∧ Forall (λ e, ∀ p, e ≠ OpenW p) evs
    ∧ durable evs.
Proof.
  induction rows as [|row rows IH]; intros prev w.
  - exists 0%nat, []. cbn. rewrite alter_append_nil, app_nil_r.
    destruct w; repeat split; auto using sleeps_positive_nil, durable_nil.
  - rewrite replay_rows_cons.
    destruct (safe_float _) as [curr|e].
    2:{ exists 0%nat, []. cbn. rewrite alter_append_nil, app_nil_r.
        destruct w; repeat split;
          auto using sleeps_positive_nil, durable_nil; discriminate. }
    cbv zeta. set (d := compute_sleep_s prev curr s).
    assert (Htr : (if Qltb 0 d then trace w ++ [Sleep d] else trace w)
                  = trace w ++ pause_events d).
    { unfold pause_events. destruct (Qltb 0 d); [reflexivity|now rewrite app_nil_r]. }
    rewrite Htr. clear Htr.
    assert (Hquiet : Forall (λ e, ∀ p, e ≠ OpenW p) (pause_events d)).
    { unfold pause_events. destruct (Qltb 0 d); repeat constructor; discriminate. }
    destruct (Qltb 0 d && negb (time_sleep_ok d)).
    { exists 0%nat, (pause_events d). cbn [snd fst take].
      rewrite written_pause, alter_append_nil.
      repeat split; auto using pause_events_positive, durable_pause; discriminate. }
    destruct (dict_to_list fieldnames row) as [cells|e] eqn:Hcells.
    2:{ exists 0%nat, (pause_events d). cbn [snd fst take].
        rewrite written_pause, alter_append_nil.
        repeat split; auto using pause_events_positive, durable_pause; discriminate. }
    match goal with |- context [replay_rows _ _ _ rows curr ?w1] =>
      destruct (IH curr w1) as (k & evs & Hw & Hwr & Hk & Hpos & Hopen & Hdur) end.
    exists (S k), (pause_events d ++ row_events out (cell_text <$> cells) ++ evs).
    rewrite Hw. cbn [files trace].
    rewrite !written_app, written_pause, written_row_events, alter_append_twice.
    cbn [app]. rewrite fmap_cons, (row_text_ret _ _ _ Hcells).
    cbn [take]. rewrite <- Hwr.
    repeat split.
    + f_equal. unfold row_events. now rewrite <- !app_assoc.
    + intros H. cbn [length]. f_equal. apply Hk. exact H.
    + apply sleeps_positive_app; [apply pause_events_positive|].
      apply sleeps_positive_app; [|exact Hpos].
      apply sleeps_positive_quiet. repeat constructor.
    + apply Forall_app. split; [exact Hquiet|].
      apply Forall_app. split; [|exact Hopen].
      repeat constructor; discriminate.
    + apply durable_app; [apply durable_pause|]. now apply durable_row.
Qed.

(** ** Dictionaries built from well-formed records *)

Lemma dict_keys_set d k v :
  ∀ k', k' ∈ dict_keys (dict_set d k v) ↔ k' = k ∨ k' ∈ dict_keys d.
Proof.
  unfold dict_keys. induction d as [|[k0 v0] d IH]; intros k'; cbn.
  - rewrite list_elem_of_singleton. rewrite elem_of_nil. tauto.
  - destruct (decide (k0 = k)) as [->|Hne]; cbn.
    + rewrite !elem_of_cons. tauto.
    + rewrite !elem_of_cons, IH. tauto.
Qed.

Lemma dict_set_fresh d k v :
  k ∉ dict_keys d → dict_set d k v = d ++ [(k, v)].
Proof.
  unfold dict_keys. induction d as [|[k0 v0] d IH]; intros Hk; cbn; [reflexivity|].
  cbn in Hk. apply not_elem_of_cons in Hk as [Hne Hk].
  rewrite decide_False by congruence. now rewrite IH.
Qed.

Lemma foldl_dict_set_fresh kvs :
  ∀ acc, NoDup (dict_keys acc ++ kvs.*1) →
    foldl (λ d kv, dict_set d kv.1 kv.2) acc kvs = acc ++ kvs.
Proof.
  unfold dict_keys.
  induction kvs as [|[k v] kvs IH]; intros acc Hnd; cbn.
  - now rewrite app_nil_r.
  - cbn in Hnd. rewrite dict_set_fresh.
    + rewrite IH; [now rewrite <- app_assoc|].
      rewrite fmap_app. cbn. now rewrite <- app_assoc.
    + apply NoDup_app in Hnd as (_ & Hdisj & _).
      intros Hin. apply (Hdisj _ Hin). left.
Qed.

Lemma dict_of_pairs_nodup kvs : NoDup kvs.*1 → dict_of_pairs kvs = kvs.
Proof.
  intros H. unfold dict_of_pairs. now rewrite foldl_dict_set_fresh.
Qed.

Lemma dict_keys_of_pairs kvs k : k ∈ dict_keys (dict_of_pairs kvs) → k ∈ kvs.*1.
Proof.
  unfold dict_of_pairs.
  assert (G : ∀ acc, k ∈ dict_keys (foldl (λ d kv, dict_set d kv.1 kv.2) acc kvs)
                     → k ∈ dict_keys acc ∨ k ∈ kvs.*1).
  { induction kvs as [|[k0 v0] kvs IH]; intros acc H; cbn in *; [now left|].
    apply IH in H as [H|H].
    - apply dict_keys_set in H as [->|H]; [right; left|now left].
    - right. now right. }
  intros H. apply G in H as [H|H]; [|exact H]. now apply elem_of_nil in H.
Qed.

Lemma dict_keys_fill d ks k :
  k ∈ dict_keys (foldl (λ d k, dict_set d (Some k) CNone) d ks) →
  k ∈ dict_keys d ∨ k ∈ (Some <$> ks : list key).
Proof.
  revert d. induction ks as [|k0 ks IH]; intros d H; cbn in *; [now left|].
  apply IH in H as [H|H].
  - apply dict_keys_set in H as [->|H]; [right; left|now left].
  - right. now right.
Qed.

(** The keys of a row that [DictReader] yields are column names of the
    header or the rest key. *)
Lemma reader_row_keys hdr r k :
  k ∈ dict_keys (reader_row hdr r) → k = None ∨ k ∈ columns hdr.
Proof.
  unfold columns.
  assert (Hzip : ∀ k, k ∈ dict_keys
                   (dict_of_pairs (zip (Some <$> hdr) (CStr <$> r)))
                 → k ∈ (Some <$> hdr : list key)).
  { intros k' H. apply dict_keys_of_pairs in H.
    apply list_elem_of_fmap in H as ([k1 v1] & -> & H).
    apply elem_of_zip_l in H. exact H. }
  unfold reader_row. cbv zeta.
  destruct (_ <? _)%nat; [|destruct (_ <? _)%nat].
  - intros H. apply dict_keys_set in H as [->|H]; [now left|right; auto].
  - intros H. apply dict_keys_fill in H as [H|H]; right; [auto|].
    apply list_elem_of_fmap in H as (x & -> & H).
    apply list_elem_of_fmap. exists x. split; [reflexivity|].
    apply list_elem_of_lookup in H as (i & H).
    rewrite lookup_drop in H. now apply list_elem_of_lookup_2 in H.
  - intros H. right. auto.
Qed.

Lemma NoDup_columns (hdr : list string) :
  NoDup hdr → NoDup (columns hdr).
Proof. unfold columns. apply NoDup_fmap_2. intros x y H. now inversion H. Qed.

Lemma length_columns hdr : length (columns hdr) = length hdr.
Proof. apply length_fmap. Qed.

Lemma dict_keys_row_of hdr r :
  length r = length hdr → dict_keys (row_of hdr r) = columns hdr.
Proof.
  intros Hlen. unfold dict_keys, row_of. apply fst_zip.
  rewrite length_columns, length_fmap. lia.
Qed.

Lemma reader_row_valid hdr r :
  NoDup hdr → length r = length hdr →
  reader_row hdr r = row_of hdr r.
Proof.
  intros Hnd Hlen. unfold reader_row. cbv zeta. rewrite Hlen.
  rewrite Nat.ltb_irrefl. apply dict_of_pairs_nodup.
  fold (columns hdr). fold (row_of hdr r). fold (dict_keys (row_of hdr r)).
  rewrite dict_keys_row_of by exact Hlen.
  now apply NoDup_columns.
Qed.

Lemma reader_rows_valid hdr raw :
  NoDup hdr → Forall (λ r, length r = length hdr) (nonblank raw) →
  reader_rows hdr raw = row_of hdr <$> nonblank raw.
Proof.
  intros Hnd Hall. unfold reader_rows.
  induction Hall as [|r recs Hr Hall IH]; [reflexivity|].
  rewrite !fmap_cons, IH. f_equal. now apply reader_row_valid.
Qed.

Lemma dict_lookup_zip_fresh (ks : list key) (vs : list cell) k :
  k ∉ ks → dict_lookup (zip ks vs) k = None.
Proof.
  revert vs. induction ks as [|k0 ks IH]; intros vs Hk; [reflexivity|].
  destruct vs as [|v vs]; [reflexivity|]. cbn.
  apply not_elem_of_cons in Hk as [Hne Hk].
  rewrite decide_False by congruence. now apply IH.
Qed.

Lemma dict_get_zip (ks : list key) (vs : list cell) dflt :
  NoDup ks → length ks = length vs →
  (λ k, dict_get (zip ks vs) k dflt) <$> ks = vs.
Proof.
  intros Hnd. revert vs. induction Hnd as [|k ks Hk Hnd IH]; intros vs Hlen.
  - destruct vs; [reflexivity|discriminate].
  - destruct vs as [|v vs]; [discriminate|]. cbn in Hlen.
    rewrite fmap_cons. f_equal.
    + unfold dict_get. cbn. now rewrite decide_True.
    + etrans; [|apply (IH vs); lia]. apply list_fmap_ext.
      intros i k' Hk'. unfold dict_get. cbn.
      rewrite decide_False; [reflexivity|].
      intros ->. apply Hk. now apply list_elem_of_lookup_2 in Hk'.
Qed.

Lemma filter_wrong_fields_nil (fieldnames ks : list key) :
  ks ⊆ fieldnames → filter (λ k, k ∉ fieldnames) ks = [].
Proof.
  intros Hsub. apply elem_of_nil_inv. intros k Hk.
  apply list_elem_of_filter in Hk as [Hk1 Hk2]. apply Hk1, Hsub, Hk2.
Qed.

(** [writerow] on a row read under the same unique header writes the
    record back unchanged. *)
Lemma dict_to_list_valid hdr r :
  NoDup hdr → length r = length hdr →
  dict_to_list (columns hdr) (row_of hdr r)
  = Ret (CStr <$> r).
Proof.
  intros Hnd Hlen. unfold dict_to_list. cbv zeta.
  rewrite dict_keys_row_of by exact Hlen.
  rewrite filter_wrong_fields_nil by reflexivity.
  f_equal. apply dict_get_zip.
  - now apply NoDup_columns.
  - rewrite length_columns, length_fmap; lia.
Qed.

Lemma cell_text_CStr (r : list string) : cell_text <$> (CStr <$> r) = r.
Proof.
  rewrite <- list_fmap_compose. induction r as [|x r IH]; [reflexivity|].
  rewrite fmap_cons. now rewrite IH.
Qed.

Lemma row_text_valid hdr r :
  NoDup hdr → length r = length hdr →
  row_text (columns hdr) (row_of hdr r) = r.
Proof.
  intros Hnd Hlen. unfold row_text.
  rewrite dict_to_list_valid by assumption. apply cell_text_CStr.
Qed.

Lemma key_cell_Some (hdr : list string) :
  key_cell <$> (columns hdr) = CStr <$> hdr.
Proof. unfold columns. rewrite <- list_fmap_compose. reflexivity. Qed.

(** [writeheader] under a unique header writes the column names. *)
Lemma header_text_valid hdr :
  NoDup hdr →
  row_text (columns hdr)
    (dict_of_pairs (zip (columns hdr) (key_cell <$> (columns hdr))))
  = hdr.
Proof.
  intros Hnd. rewrite key_cell_Some. fold (row_of hdr hdr).
  rewrite dict_of_pairs_nodup.
  - apply row_text_valid; [exact Hnd|reflexivity].
  - fold (dict_keys (row_of hdr hdr)). rewrite dict_keys_row_of by reflexivity.
    now apply NoDup_columns.
Qed.

Lemma dict_lookup_zip_Some (hdr : list string) (r : list string) c :
  length r = length hdr → c ∈ hdr →
  ∃ v, dict_lookup (row_of hdr r) (Some c) = Some (CStr v).
Proof.
  unfold row_of, columns.
  revert r. induction hdr as [|c0 hdr IH]; intros r Hlen Hc.
  - now apply elem_of_nil in Hc.
  - destruct r as [|v r]; [discriminate|].
    rewrite !fmap_cons. cbn [zip_with dict_lookup].
    case_decide as Hne; [now exists v|].
    apply elem_of_cons in Hc as [->|Hc]; [congruence|].
    apply IH; [cbn in Hlen; lia|exact Hc].
Qed.

(** In a well-formed row the pacing cell is a string, so [safe_float]
    returns. *)
Lemma safe_float_valid hdr r :
  length r = length hdr → "time"%string ∈ hdr →
  ∃ t, safe_float (dict_get (row_of hdr r) (Some "time"%string) CNone)
       = Ret t.
Proof.
  intros Hlen Ht. destruct (dict_lookup_zip_Some hdr r "time" Hlen Ht) as [v Hv].
  unfold dict_get. rewrite Hv. cbn.
  destruct (decide (strip v = "")); eauto.
Qed.

(** ** The loader *)

(** [read_all_rows] reads only: the world is unchanged and the result is
    decided by the records of the file. *)
Lemma read_all_rows_run path w :
  read_all_rows path w =
  (match files w !! path with
   | None => Raise (FileNotFoundError path)
   | Some recs =>
       match reader_fieldnames recs with
       | None | Some [] => Raise (ValueError "Input CSV has no header.")
       | Some fieldnames =>
           match reader_rows fieldnames (tail recs) with
           | [] => Raise (ValueError "Input CSV has no data rows.")
           | rows => Ret rows
           end
       end
   end, w).
Proof.
  unfold read_all_rows, open_read. run_m.
  destruct (files w !! path) as [recs|]; [|reflexivity].
  destruct (reader_fieldnames recs) as [[|c hdr]|]; try reflexivity.
  destruct (reader_rows _ _); reflexivity.
Qed.

Lemma read_all_rows_valid path w hdr raw :
  files w !! path = Some (hdr :: raw) → valid_dataset hdr (nonblank raw) →
  read_all_rows path w
  = (Ret (row_of hdr <$> nonblank raw), w).
Proof.
  intros Hf (Hnd & Ht & Hne & Hall). rewrite read_all_rows_run, Hf.
  cbn [reader_fieldnames head tail].
  assert (Hhdr : hdr ≠ []).
  { intros ->. now apply elem_of_nil in Ht. }
  rewrite reader_rows_valid by assumption.
  destruct hdr as [|c hdr]; [congruence|].
  destruct (nonblank raw) as [|r recs]; [congruence|]. reflexivity.
Qed.

(** ** The whole run, path by path *)

Lemma main_run args w :
  main args w =
  if Qle_bool (speed args) 0 then
    (Ret 2, World (files w) (trace w ++ [Stderr MsgSpeed]))
  else
    match files w !! input args with
    | None =>
        (Ret 2, World (files w) (trace w ++ [Stderr (MsgNotFound (input args))]))
    | Some _ =>
        let w1 := World (files w) (trace w ++ [Mkdir (output args)]) in
        match (read_all_rows (input args) w1).1 with
        | Raise e =>
            (Ret 2, World (files w)
                      (trace w ++ [Mkdir (output args); Stderr (MsgReadFailed e)]))
        | Ret [] => (Raise IndexError, w1)
        | Ret (row0 :: rows') =>
            let fieldnames := dict_keys row0 in
            if bool_decide (Some "time"%string ∉ fieldnames) then
              (Ret 2, World (files w)
                        (trace w ++ [Mkdir (output args); Stderr MsgNoTime]))
            else
              match dict_to_list fieldnames
                      (dict_of_pairs (zip fieldnames (key_cell <$> fieldnames))) with
              | Raise e =>
                  (Raise e, World (<[output args := []]> (files w))
                              (trace w ++ [Mkdir (output args); OpenW (output args)]))
              | Ret cells =>
                  let hdr := cell_text <$> cells in
                  let w2 :=
                    World (<[output args := [hdr]]> (files w))
                      (trace w ++ [Mkdir (output args); OpenW (output args)]
                         ++ row_events (output args) hdr
                         ++ [Stdout (MsgStarting (input args) (output args)
                                       (speed args))]) in
                  match replay_rows (output args) fieldnames (speed args)
                          (row0 :: rows') None w2 with
                  | (Ret _, w3) =>
                      (Ret 0, World (files w3) (trace w3 ++ [Stdout MsgEnd]))
                  | (Raise e, w3) => (Raise e, w3)
                  end
              end
        end
    end.
Proof.
  unfold main. destruct (Qle_bool (speed args) 0); [reflexivity|].
  cbv zeta. unfold path_exists. run_m.
  destruct (files w !! input args) as [recs0|] eqn:Hin.
  2:{ rewrite bool_decide_eq_false_2 by (intros [? ?]; discriminate). reflexivity. }
  rewrite bool_decide_eq_true_2 by eauto. cbn [negb].
  rewrite !read_all_rows_run. cbn [files trace fst]. rewrite Hin.
  match goal with |- context [match ?x with Ret _ => _ | Raise _ => _ end] =>
    destruct x as [[|row0 rows']|e] end; cbn [fst snd].
  - reflexivity.
  - destruct (bool_decide _); cbn [files trace].
    + rewrite <- app_assoc. reflexivity.
    + destruct (dict_to_list _ _) as [cells|e]; cbn [files trace].
      * rewrite alter_insert_eq. unfold row_events.
        rewrite <- !app_assoc. reflexivity.
      * rewrite <- !app_assoc. reflexivity.
  - cbn [files trace]. rewrite <- app_assoc. reflexivity.
Qed.

(** [writeheader] never raises: the header dict has no key outside the
    field names. *)
Lemma header_dict_ok (fieldnames : list key) :
  ∃ cells,
    dict_to_list fieldnames
      (dict_of_pairs (zip fieldnames (key_cell <$> fieldnames))) = Ret cells.
Proof.
  unfold dict_to_list. cbv zeta. rewrite filter_wrong_fields_nil; [eauto|].
  intros k Hk. apply dict_keys_of_pairs in Hk.
  apply list_elem_of_fmap in Hk as ([k1 v1] & -> & Hk).
  now apply elem_of_zip_l in Hk.
Qed.

Lemma read_all_rows_outcome_trace path fs tr tr' :
  (read_all_rows path (World fs tr)).1 = (read_all_rows path (World fs tr')).1.
Proof. now rewrite !read_all_rows_run. Qed.

(** The run once the input is loaded and has the pacing column: the
    output is truncated, the header is written and made durable, then the
    loop appends the text of a prefix of the rows. *)
Lemma main_replay args w row0 rows :
  Qle_bool (speed args) 0 = false →
  (read_all_rows (input args) w).1 = Ret (row0 :: rows) →
  Some "time"%string ∈ dict_keys row0 →
  let fieldnames := dict_keys row0 in
  let out := output args in
  ∃ (k : nat) (evs : list event),
    files (main args w).2
      = <[out := header_text fieldnames
                   :: take k (row_text fieldnames <$> row0 :: rows)]> (files w)
    ∧ trace (main args w).2
      = trace w ++ [Mkdir out; OpenW out] ++ row_events out (header_text fieldnames)
          ++ [Stdout (MsgStarting (input args) out (speed args))] ++ evs
    ∧ written out evs = take k (row_text fieldnames <$> row0 :: rows)
    ∧ ((main args w).1 = Ret 0 → k = length (row0 :: rows))
    ∧ (main args w).1 ≠ Ret 2
    ∧ sleeps_positive evs
    ∧ Forall (λ e, ∀ p, e ≠ OpenW p) evs
    ∧ durable evs.
Proof.
  intros Hs Hread Htime fieldnames out.
  rewrite main_run, Hs.
  assert (Hin : is_Some (files w !! input args)).
  { rewrite read_all_rows_run in Hread. cbn [fst] in Hread.
    destruct (files w !! input args); [eauto|discriminate]. }
  destruct Hin as [recs0 Hin]. rewrite Hin. cbv zeta.
  destruct w as [fs tr]. cbn [files trace] in *.
  rewrite (read_all_rows_outcome_trace _ _ _ tr), Hread.
  rewrite bool_decide_eq_false_2 by (intros H; now apply H).
  fold fieldnames. fold out.
  destruct (header_dict_ok fieldnames) as [cells Hcells].
  rewrite Hcells.
  assert (Hhdr : cell_text <$> cells = header_text fieldnames).
  { unfold header_text. symmetry. now apply row_text_ret. }
  rewrite Hhdr.
  match goal with |- context [replay_rows out fieldnames ?s ?rs None ?w2] =>
    destruct (replay_rows_effects out fieldnames s rs None w2)
      as (k & evs & Hw & Hwr & Hk & Hpos & Hopen & Hdur);
    destruct (replay_rows out fieldnames s rs None w2) as [[[]|e] w3]
  end; cbn [fst snd files trace] in *; subst w3; cbn [files trace].
  - exists k, (evs ++ [Stdout MsgEnd]).
    rewrite alter_insert_eq, written_app, Hwr. cbn [written app].
    rewrite app_nil_r, <- !app_assoc.
    repeat split; auto.
    + apply sleeps_positive_app; [exact Hpos|].
      apply sleeps_positive_quiet. repeat constructor.
    + apply Forall_app. split; [exact Hopen|]. repeat constructor; discriminate.
    + apply durable_app; [exact Hdur|].
      apply durable_skip; [discriminate|constructor].
  - exists k, evs. rewrite alter_insert_eq, Hwr. cbn [app].
    rewrite <- !app_assoc.
    repeat split; auto; discriminate.
Qed.

(** A run that returns 0 went through the replay. *)
Lemma main_completed_inv args w w' :
  main args w = (Ret 0, w') →
  Qle_bool (speed args) 0 = false ∧
  ∃ row0 rows,
    (read_all_rows (input args) w).1 = Ret (row0 :: rows) ∧
    Some "time"%string ∈ dict_keys row0.
Proof.
  rewrite main_run. destruct (Qle_bool (speed args) 0); [discriminate|].
  destruct (files w !! input args) as [recs0|] eqn:Hin; [|discriminate].
  cbv zeta. destruct w as [fs tr]. cbn [files trace] in *.
  rewrite (read_all_rows_outcome_trace _ _ _ tr).
  destruct (read_all_rows (input args) (World fs tr)).1
    as [[|row0 rows]|e]; try discriminate.
  destruct (bool_decide _) eqn:Ht; [discriminate|].
  apply bool_decide_eq_false in Ht. intros _. split; [reflexivity|].
  exists row0, rows. split; [reflexivity|].
  destruct (decide (Some "time"%string ∈ dict_keys row0)); tauto.
Qed.

(** On a valid dataset with a positive speed, every run truncates the
    output, writes the header, and appends a prefix of the data rows, all
    of them when it returns 0. *)
Lemma main_valid args w hdr raw :
  (0 < speed args)%Q →
  files w !! input args = Some (hdr :: raw) →
  valid_dataset hdr (nonblank raw) →
  let out := output args in
  let recs := nonblank raw in
  ∃ (k : nat) (evs : list event),
    files (main args w).2 = <[out := hdr :: take k recs]> (files w)
    ∧ trace (main args w).2
      = trace w ++ [Mkdir out; OpenW out] ++ row_events out hdr
          ++ [Stdout (MsgStarting (input args) out (speed args))] ++ evs
    ∧ written out evs = take k recs
    ∧ ((main args w).1 = Ret 0 → k = length recs)
    ∧ sleeps_positive evs
    ∧ Forall (λ e, ∀ p, e ≠ OpenW p) evs
    ∧ durable evs.
Proof.
  intros Hs Hin Hv out recs.
  pose proof Hv as (Hnd & Ht & Hne & Hall).
  pose proof (read_all_rows_valid _ _ _ _ Hin Hv) as Hread.
  fold recs in Hread, Hne, Hall. clearbody recs.
  destruct recs as [|r recs]; [congruence|].
  apply (f_equal fst) in Hread. cbn [fst] in Hread. rewrite fmap_cons in Hread.
  assert (Hlen : length r = length hdr) by now inversion Hall.
  pose proof (dict_keys_row_of hdr r Hlen) as Hkeys.
  assert (Hsp : Qle_bool (speed args) 0 = false).
  { apply not_true_iff_false. rewrite Qle_bool_iff. lra. }
  assert (Htime : Some "time"%string ∈ dict_keys (row_of hdr r)).
  { rewrite Hkeys. unfold columns. apply list_elem_of_fmap. eauto. }
  destruct (main_replay args w _ _ Hsp Hread Htime)
    as (k & evs & Hf & Htr & Hwr & Hk & _ & Hpos & Hopen & Hdur).
  rewrite Hkeys in Hf, Htr, Hwr.
  assert (Hh : header_text (columns hdr) = hdr).
  { unfold header_text. now apply header_text_valid. }
  assert (Hrows : row_text (columns hdr)
            <$> (row_of hdr r
                 :: (row_of hdr <$> recs))
          = r :: recs).
  { rewrite fmap_cons. f_equal; [now apply row_text_valid|].
    rewrite <- list_fmap_compose.
    etrans; [|apply list_fmap_id].
    apply list_fmap_ext. intros i x Hx. cbn.
    apply row_text_valid; [exact Hnd|].
    rewrite Forall_forall in Hall. apply Hall. right.
    now apply list_elem_of_lookup_2 in Hx. }
  rewrite Hh in Hf, Htr. rewrite Hrows in Hf, Hwr.
  exists k, evs. repeat split; auto.
  intros H. apply Hk in H. cbn [length] in *. rewrite length_fmap in H. exact H.
Qed.

(** ** Completion *)

(** On well-formed rows the loop returns as soon as every requested
    sleep does. *)
Lemma replay_rows_completes out s hdr recs :
  NoDup hdr → "time"%string ∈ hdr →
  Forall (λ r, length r = length hdr) recs →
  (∀ d, (0 < d)%Q → time_sleep_ok d = true) →
  ∀ prev w,
    (replay_rows out (columns hdr) s (row_of hdr <$> recs) prev w).1 = Ret tt.
Proof.
  intros Hnd Ht Hall Hok. induction Hall as [|r recs Hr Hall IH]; intros prev w.
  - reflexivity.
  - rewrite fmap_cons, replay_rows_cons.
    destruct (safe_float_valid hdr r Hr Ht) as [t Hcurr]. rewrite Hcurr.
    cbv zeta. rewrite dict_to_list_valid by assumption.
    destruct (Qltb 0 _) eqn:Hd; cbn [andb].
    + apply Qltb_lt, Hok in Hd. rewrite Hd. cbn [negb]. apply IH.
    + apply IH.
Qed.

(** A replay of a valid dataset at a positive speed returns 0 when the
    platform accepts every sleep. *)
Lemma main_completes args w hdr raw :
  (0 < speed args)%Q →
  files w !! input args = Some (hdr :: raw) →
  valid_dataset hdr (nonblank raw) →
  (∀ d, (0 < d)%Q → time_sleep_ok d = true) →
  (main args w).1 = Ret 0.
Proof.
  intros Hs Hin Hv Hok. pose proof Hv as (Hnd & Ht & Hne & Hall).
  rewrite main_run.
  assert (Hsp : Qle_bool (speed args) 0 = false).
  { apply not_true_iff_false. rewrite Qle_bool_iff. lra. }
  rewrite Hsp, Hin. cbv zeta.
  rewrite (read_all_rows_valid _ _ hdr raw) by assumption. cbn [fst].
  destruct (nonblank raw) as [|r recs]; [congruence|]. rewrite fmap_cons.
  assert (Hlen : length r = length hdr) by now inversion Hall.
  rewrite dict_keys_row_of by exact Hlen.
  rewrite bool_decide_eq_false_2.
  2:{ intros H. apply H. unfold columns. apply list_elem_of_fmap. eauto. }
  destruct (header_dict_ok (columns hdr)) as [cells Hcells]. rewrite Hcells.
  match goal with |- context [replay_rows ?o ?f ?s ?rs None ?w2] =>
    pose proof (replay_rows_completes o s hdr (r :: recs) Hnd Ht Hall Hok None w2) as Hc;
    rewrite fmap_cons in Hc;
    destruct (replay_rows o f s rs None w2) as [[[]|e] w3]
  end; [reflexivity|discriminate].
Qed.

(** ** Properties of a replay *)

Lemma positive_speed_of_completed args w w' :
  main args w = (Ret 0, w') → (0 < speed args)%Q.
Proof.
  intros H. apply main_completed_inv in H as [H _].
  apply Qnot_le_lt. rewrite <- Qle_bool_iff. now rewrite H.
Qed.

(** C2: after a replay of a valid N-row dataset that runs to completion,
    the output holds the header followed by exactly the N input records,
    unchanged and in the input order; the run appended one record per
    input row, each flushed and synced at once.  (Blank lines of the
    input are not rows.) *)
Theorem replay_preserves_rows (args : Args) (w w' : world)
    (hdr : list string) (raw : list (list string)) :
  files w !! input args = Some (hdr :: raw) →
  valid_dataset hdr (nonblank raw) →
  main args w = (Ret 0, w') →
  let recs := nonblank raw in
  files w' = <[output args := hdr :: recs]> (files w)
  ∧ ∃ evs, trace w' = trace w ++ evs
      ∧ written (output args) evs = hdr :: recs
      ∧ length (tail (written (output args) evs)) = length recs
      ∧ durable evs.
Proof.
  intros Hin Hv Hrun recs.
  pose proof (positive_speed_of_completed _ _ _ Hrun) as Hs.
  destruct (main_valid args w hdr raw Hs Hin Hv)
    as (k & evs & Hf & Htr & Hwr & Hk & _ & _ & Hdur).
  fold recs in Hf, Hwr, Hk.
  rewrite Hrun in Hf, Htr, Hk. cbn [fst snd] in *.
  specialize (Hk eq_refl). subst k. rewrite firstn_all in Hf, Hwr.
  split; [exact Hf|].
  eexists. split; [exact Htr|].
  rewrite !written_app, written_row_events, Hwr.
  split; [reflexivity|]. split; [reflexivity|].
  apply durable_skip; [discriminate|].
  apply durable_skip; [discriminate|].
  apply durable_row. apply durable_skip; [discriminate|exact Hdur].
Qed.

(** C3: on a valid dataset the run first truncates (or creates) the
    output, then at once writes the header, equal to the input header,
    and makes it durable; no pacing delay and no data row comes before
    it, the output is not opened again, and its first line stays the
    header however the run ends. *)
Theorem header_written_first (args : Args) (w : world)
    (hdr : list string) (raw : list (list string)) :
  (0 < speed args)%Q →
  files w !! input args = Some (hdr :: raw) →
  valid_dataset hdr (nonblank raw) →
  let out := output args in
  let recs := nonblank raw in
  ∃ (k : nat) (rest : list event),
    trace (main args w).2
      = trace w ++ [Mkdir out; OpenW out; WriteRec out hdr; Flush out; Fsync out]
          ++ rest
    ∧ Forall (λ e, ∀ p, e ≠ OpenW p) rest
    ∧ files (main args w).2 !! out = Some (hdr :: take k recs).
Proof.
  intros Hs Hin Hv out recs.
  destruct (main_valid args w hdr raw Hs Hin Hv)
    as (k & evs & Hf & Htr & _ & _ & _ & Hopen & _).
  exists k, (Stdout (MsgStarting (input args) out (speed args)) :: evs).
  split; [exact Htr|]. split.
  - constructor; [discriminate|exact Hopen].
  - rewrite Hf. apply lookup_insert_eq.
Qed.

(** C4: a row whose pacing cell is missing, blank or not a number does
    not stop the replay: [safe_float] returns "absent" instead of
    raising, the row is emitted with delay 0 (no sleep), and so is the
    row after it, because the stored previous pacing value is absent. *)
Theorem unreadable_time_degrades (out : string) (fieldnames : list key)
    (s : Q) (row next : pydict) (rest : list pydict) (prev t' : option Q)
    (cells cells' : list cell) (w : world) :
  no_pacing_value (dict_get row (Some "time"%string) CNone) →
  dict_to_list fieldnames row = Ret cells →
  dict_to_list fieldnames next = Ret cells' →
  safe_float (dict_get next (Some "time"%string) CNone) = Ret t' →
  safe_float (dict_get row (Some "time"%string) CNone) = Ret None
  ∧ compute_sleep_s prev None s = 0%Q
  ∧ compute_sleep_s None t' s = 0%Q
  ∧ replay_rows out fieldnames s (row :: next :: rest) prev w
    = replay_rows out fieldnames s rest t'
        (World (alter (λ c, c ++ [cell_text <$> cells; cell_text <$> cells'])
                  out (files w))
               (trace w ++ row_events out (cell_text <$> cells)
                  ++ row_events out (cell_text <$> cells'))).
Proof.
  intros Hno Hc Hc' Ht'.
  assert (Hcurr : safe_float (dict_get row (Some "time"%string) CNone) = Ret None).
  { destruct Hno as [->|(x & -> & [Hx|Hx])]; cbn; [reflexivity| |].
    - now rewrite decide_True.
    - destruct (decide (strip x = "")); [reflexivity|now rewrite Hx]. }
  assert (Hz : compute_sleep_s prev None s = 0%Q) by now destruct prev.
  repeat split; [exact Hcurr|exact Hz|].
  rewrite !replay_rows_cons, Hcurr. cbv zeta. rewrite Hz. cbn [Qltb andb].
  change (Qltb 0 0) with false. cbn [andb]. rewrite Hc.
  rewrite replay_rows_cons, Ht'. cbv zeta. cbn [compute_sleep_s].
  change (Qltb 0 0) with false. cbn [andb]. rewrite Hc'.
  cbn [files trace]. rewrite alter_append_twice. unfold row_events.
  rewrite <- !app_assoc. reflexivity.
Qed.

(** Rows exist, so the first one has the header's column names (and
    possibly the rest key) as its keys. *)
Lemma reader_rows_no_time hdr recs row0 rows :
  reader_rows hdr recs = row0 :: rows → "time"%string ∉ hdr →
  Some "time"%string ∉ dict_keys row0.
Proof.
  unfold reader_rows. intros Hrows Ht Hin.
  destruct (nonblank recs) as [|r0 rs]; [discriminate|].
  rewrite fmap_cons in Hrows. injection Hrows as <- _.
  apply reader_row_keys in Hin as [Hin|Hin]; [discriminate|].
  unfold columns in Hin. apply list_elem_of_fmap in Hin as (c & Hc & Hin).
  injection Hc as <-. contradiction.
Qed.

(** C6: a run whose input does not exist, has no header row, has a
    header but no data row, or has a header without a "time" column
    returns exit code 2 with one diagnostic on the error stream and leaves
    every file as it was: the output is never opened or written.  The
    four conditions have four different diagnostics (a speed <= 0 is
    reported before any of them). *)
Theorem load_failures_abort (args : Args) (w : world) :
  let out := output args in
  let aborted pre m :=
    main args w = (Ret 2, World (files w) (trace w ++ abort_trace args pre m)) in
  (files w !! input args = None → aborted [] (MsgNotFound (input args)))
  ∧ (∀ recs, files w !! input args = Some recs →
       reader_fieldnames recs = None ∨ reader_fieldnames recs = Some [] →
       aborted [Mkdir out] (MsgReadFailed (ValueError "Input CSV has no header.")))
  ∧ (∀ hdr recs, files w !! input args = Some (hdr :: recs) → hdr ≠ [] →
       nonblank recs = [] →
       aborted [Mkdir out] (MsgReadFailed (ValueError "Input CSV has no data rows.")))
  ∧ (∀ hdr recs, files w !! input args = Some (hdr :: recs) → hdr ≠ [] →
       nonblank recs ≠ [] → "time"%string ∉ hdr →
       aborted [Mkdir out] MsgNoTime)
  ∧ NoDup [MsgNotFound (input args);
           MsgReadFailed (ValueError "Input CSV has no header.");
           MsgReadFailed (ValueError "Input CSV has no data rows.");
           MsgNoTime]
  ∧ ∀ m, Forall (λ e, touches_file e = false) (abort_trace args [Mkdir out] m).
Proof.
  cbv zeta. unfold abort_trace. rewrite main_run.
  destruct (Qle_bool (speed args) 0).
  { repeat split; try reflexivity.
    - repeat constructor; rewrite ?elem_of_cons, ?elem_of_nil; intuition discriminate.
    - repeat constructor. }
  split; [|split; [|split; [|split; [|split]]]].
  - intros ->. reflexivity.
  - intros recs Hin Hh. rewrite Hin. cbv zeta.
    rewrite read_all_rows_run. cbn [files fst]. rewrite Hin.
    destruct Hh as [Hh|Hh]; rewrite Hh; reflexivity.
  - intros hdr recs Hin Hhdr Hrows. rewrite Hin. cbv zeta.
    rewrite read_all_rows_run. cbn [files fst]. rewrite Hin.
    cbn [reader_fieldnames head tail]. unfold reader_rows. rewrite Hrows.
    destruct hdr; [congruence|reflexivity].
  - intros hdr recs Hin Hhdr Hrows Ht. rewrite Hin. cbv zeta.
    rewrite read_all_rows_run. cbn [files fst]. rewrite Hin.
    cbn [reader_fieldnames head tail].
    destruct hdr as [|c hdr]; [congruence|].
    destruct (reader_rows (c :: hdr) recs) as [|row0 rows] eqn:Hr.
    { unfold reader_rows in Hr. apply fmap_nil_inv in Hr. contradiction. }
    cbn [fst]. rewrite bool_decide_eq_true_2; [reflexivity|].
    now apply (reader_rows_no_time _ _ _ _ Hr).
  - repeat constructor; rewrite ?elem_of_cons, ?elem_of_nil; intuition discriminate.
  - intros m. repeat constructor.
Qed.

(** Every run, whatever its input, only calls [time.sleep] with a
    positive duration. *)
Lemma main_sleeps_positive args w :
  ∃ evs, trace (main args w).2 = trace w ++ evs ∧ sleeps_positive evs.
Proof.
  destruct (Qle_bool (speed args) 0) eqn:Hs.
  { rewrite main_run, Hs. eexists. split; [reflexivity|].
    apply sleeps_positive_quiet. repeat constructor. }
  destruct (read_all_rows (input args) w).1 as [[|row0 rows]|e] eqn:Hread.
  2:{ destruct (decide (Some "time"%string ∈ dict_keys row0)) as [Ht|Ht].
      - destruct (main_replay args w row0 rows Hs Hread Ht)
          as (k & evs & _ & Htr & _ & _ & _ & Hpos & _ & _).
        eexists. split; [exact Htr|].
        apply sleeps_positive_app; [apply sleeps_positive_quiet; repeat constructor|].
        apply sleeps_positive_app; [apply sleeps_positive_quiet; repeat constructor|].
        apply sleeps_positive_app; [apply sleeps_positive_quiet; repeat constructor|].
        exact Hpos.
      - rewrite main_run, Hs. destruct (files w !! input args).
        + cbv zeta. destruct w as [fs tr]. cbn [files trace] in *.
          rewrite (read_all_rows_outcome_trace _ _ _ tr), Hread.
          rewrite bool_decide_eq_true_2 by exact Ht.
          eexists. split; [reflexivity|].
          apply sleeps_positive_quiet. repeat constructor.
        + eexists. split; [reflexivity|].
          apply sleeps_positive_quiet. repeat constructor. }
  all: rewrite main_run, Hs; destruct (files w !! input args);
    [cbv zeta; destruct w as [fs tr]; cbn [files trace] in *;
     rewrite (read_all_rows_outcome_trace _ _ _ tr), Hread|];
    (eexists; split; [reflexivity|]);
    apply sleeps_positive_quiet; repeat constructor.
Qed.

(** C7: for numeric pacing values t1 (previous), t2 (current) and a
    speed s > 0 the delay is never negative, and it is 0 when t2 < t1;
    and no run ever requests a sleep that is not positive. *)
Theorem delay_never_negative (t1 t2 s : Q) :
  (0 < s)%Q →
  (0 <= compute_sleep_s (Some t1) (Some t2) s)%Q
  ∧ ((t2 < t1)%Q → (compute_sleep_s (Some t1) (Some t2) s == 0)%Q)
  ∧ ∀ (input output : string) (w : world),
      ∃ evs,
        trace (main {| input := input; output := output; speed := s |} w).2
          = trace w ++ evs
        ∧ sleeps_positive evs.
Proof.
  intros Hs. split; [apply compute_sleep_s_nonneg|]. split.
  - intros Hlt. unfold compute_sleep_s. cbv zeta.
    rewrite py_max_of_neg by lra. unfold Qdiv. apply Qmult_0_l.
  - intros i o w. apply main_sleeps_positive.
Qed.

(** Two runs in a row into the same output: what the first run wrote is
    gone, the output holds the second run's header and rows only. *)
Lemma second_run_only (args1 args2 : Args) (w0 w1 w2 : world)
    (hdr : list string) (raw : list (list string)) :
  output args1 = output args2 →
  main args1 w0 = (Ret 0, w1) →
  files w1 !! input args2 = Some (hdr :: raw) →
  valid_dataset hdr (nonblank raw) →
  main args2 w1 = (Ret 0, w2) →
  files w2 !! output args2 = Some (hdr :: nonblank raw).
Proof.
  intros _ _ Hin Hv Hrun.
  pose proof (positive_speed_of_completed _ _ _ Hrun) as Hs.
  destruct (main_valid args2 w1 hdr raw Hs Hin Hv)
    as (k & evs & Hf & _ & _ & Hk & _).
  rewrite Hrun in Hf, Hk. cbn [fst snd] in *.
  rewrite (Hk eq_refl), firstn_all in Hf. rewrite Hf. apply lookup_insert_eq.
Qed.

(** C9: whatever the output held before the run (any records, or no
    file at all), a completed replay of a valid dataset leaves in it the
    header and this run's rows and nothing else: the earlier content is
    gone, not extended. *)
Theorem rerun_truncates (args : Args) (w w' : world)
    (old : option (list (list string)))
    (hdr : list string) (raw : list (list string)) :
  input args ≠ output args →
  files w !! input args = Some (hdr :: raw) →
  valid_dataset hdr (nonblank raw) →
  main args (World (partial_alter (λ _, old) (output args) (files w)) (trace w))
    = (Ret 0, w') →
  files w' = <[output args := hdr :: nonblank raw]> (files w)
  ∧ files w' !! output args = Some (hdr :: nonblank raw).
Proof.
  intros Hne Hin Hv Hrun.
  pose proof (positive_speed_of_completed _ _ _ Hrun) as Hs.
  set (w1 := World (partial_alter (λ _, old) (output args) (files w)) (trace w)) in *.
  assert (Hin1 : files w1 !! input args = Some (hdr :: raw)).
  { cbn. rewrite lookup_partial_alter_ne by congruence. exact Hin. }
  destruct (main_valid args w1 hdr raw Hs Hin1 Hv)
    as (k & evs & Hf & _ & _ & Hk & _).
  rewrite Hrun in Hf, Hk. cbn [fst snd] in *.
  specialize (Hk eq_refl). subst k. rewrite firstn_all in Hf.
  unfold w1 in Hf. cbn [files] in Hf.
  rewrite insert_partial_alter_eq in Hf.
  split; [exact Hf|]. rewrite Hf. apply lookup_insert_eq.
Qed.

(** C10: two completed replays of the same input into the same output
    that differ only in their speed leave the same files and append the
    same records in the same order: the speed changes the pauses, never
    the data. *)
Theorem speed_does_not_change_output (a1 a2 : Args) (w w1 w2 : world) :
  input a1 = input a2 → output a1 = output a2 →
  main a1 w = (Ret 0, w1) →
  main a2 w = (Ret 0, w2) →
  files w1 = files w2
  ∧ written (output a1) (trace w1) = written (output a1) (trace w2).
Proof.
  intros Hi Ho H1 H2.
  destruct (main_completed_inv _ _ _ H1) as (Hs1 & row0 & rows & Hr1 & Ht1).
  destruct (main_completed_inv _ _ _ H2) as (Hs2 & row0' & rows' & Hr2 & Ht2).
  rewrite <- Hi, Hr1 in Hr2. injection Hr2 as <- <-.
  destruct (main_replay a1 w row0 rows Hs1 Hr1 Ht1)
    as (k1 & evs1 & Hf1 & Htr1 & Hwr1 & Hk1 & _).
  assert (Hr2 : (read_all_rows (input a2) w).1 = Ret (row0 :: rows))
    by now rewrite <- Hi.
  destruct (main_replay a2 w row0 rows Hs2 Hr2 Ht2)
    as (k2 & evs2 & Hf2 & Htr2 & Hwr2 & Hk2 & _).
  rewrite H1 in Hf1, Htr1, Hk1. rewrite H2 in Hf2, Htr2, Hk2.
  cbn [fst snd] in *. rewrite <- Ho in *.
  rewrite (Hk1 eq_refl) in *. rewrite (Hk2 eq_refl) in *.
  split.
  - now rewrite Hf1, Hf2.
  - rewrite Htr1, Htr2, !written_app, Hwr1, Hwr2. reflexivity.
Qed.

(** ** Further properties of the delay *)

(** The delay by cases, with the divisor that the code uses. *)
Lemma compute_sleep_s_cases p c s :
  let D := py_max (1 # 1000000000) s in
  ((1 # 1000000000) <= D)%Q
  ∧ ((c <= p)%Q → (compute_sleep_s (Some p) (Some c) s == 0)%Q)
  ∧ ((p <= c)%Q → (compute_sleep_s (Some p) (Some c) s == (c - p) / D)%Q).
Proof.
  cbv zeta. split; [apply py_max_floor|]. unfold compute_sleep_s. cbv zeta.
  pose proof (py_max_floor s) as HD. split; intros H.
  - rewrite (py_max_Qmax 0 (c - p)), Q.max_l by lra. field. lra.
  - rewrite (py_max_Qmax 0 (c - p)), Q.max_r by lra. reflexivity.
Qed.

Lemma Qdiv_pos_le a b D : (0 < D)%Q → (a <= b)%Q → (a / D <= b / D)%Q.
Proof.
  intros HD Hab. unfold Qdiv. apply Qmult_le_compat_r; [exact Hab|].
  apply Qlt_le_weak, Qinv_lt_0_compat, HD.
Qed.




(** X4: a larger gap and a lower speed never shorten the delay. *)
Theorem delay_monotone (p1 c1 p2 c2 s1 s2 : Q) :
  (c1 - p1 <= c2 - p2)%Q → (s2 <= s1)%Q →
  (compute_sleep_s (Some p1) (Some c1) s1
   <= compute_sleep_s (Some p2) (Some c2) s2)%Q.
Proof.
  intros Hgap Hs.
  destruct (compute_sleep_s_cases p1 c1 s1) as (HD1 & Hz1 & Hpos1).
  destruct (compute_sleep_s_cases p2 c2 s2) as (HD2 & _ & Hpos2).
  destruct (Qlt_le_dec p1 c1) as [Hlt|Hle].
  2:{ rewrite Hz1 by exact Hle. apply compute_sleep_s_nonneg. }
  rewrite Hpos1, Hpos2 by lra.
  assert (HDD : (py_max (1 # 1000000000) s2 <= py_max (1 # 1000000000) s1)%Q).
  { rewrite !py_max_Qmax. apply Q.max_le_compat_l. exact Hs. }
  set (D1 := py_max (1 # 1000000000) s1) in *.
  set (D2 := py_max (1 # 1000000000) s2) in *.
  apply Qle_trans with ((c2 - p2) / D1)%Q.
  - apply Qdiv_pos_le; lra.
  - apply Qle_shift_div_r; [lra|].
    assert (HY : (0 <= (c2 - p2) / D2)%Q) by (apply Qle_shift_div_l; lra).
    assert (HX : ((c2 - p2) / D2 * D2 == c2 - p2)%Q) by (field; lra).
    set (Y := ((c2 - p2) / D2)%Q) in *. nra.
Qed.


(** ** Further properties of [safe_float] *)

Lemma string_app_cons a (s t : string) : String a s +:+ t = String a (s +:+ t).
Proof. reflexivity. Qed.

Lemma string_app_nil_l (t : string) : "" +:+ t = t.
Proof. reflexivity. Qed.

Lemma string_app_nil_r (s : string) : s +:+ "" = s.
Proof.
  induction s as [|a s IH]; [reflexivity|]. now rewrite string_app_cons, IH.
Qed.

Lemma string_app_assoc (a b c : string) : (a +:+ b) +:+ c = a +:+ (b +:+ c).
Proof.
  induction a as [|x a IH]; [reflexivity|]. now rewrite !string_app_cons, IH.
Qed.

Lemma rev_app_app (s1 s2 t : string) :
  String.rev_app s1 s2 +:+ t = String.rev_app s1 (s2 +:+ t).
Proof.
  revert s2. induction s1 as [|a s1 IH]; intros s2; [reflexivity|].
  cbn [String.rev_app]. rewrite IH. reflexivity.
Qed.

Lemma string_rev_cons a s : String.rev (String a s) = String.rev s +:+ String a "".
Proof.
  unfold String.rev. cbn [String.rev_app]. now rewrite rev_app_app.
Qed.

Lemma string_rev_app (s t : string) :
  String.rev (s +:+ t) = String.rev t +:+ String.rev s.
Proof.
  induction s as [|a s IH].
  - rewrite string_app_nil_l. change (String.rev "") with ""%string.
    now rewrite string_app_nil_r.
  - now rewrite string_app_cons, !string_rev_cons, IH, string_app_assoc.
Qed.

Lemma all_space_app (s t : string) :
  all_space (s +:+ t) = all_space s && all_space t.
Proof.
  induction s as [|a s IH]; [reflexivity|].
  rewrite string_app_cons. cbn [all_space]. rewrite IH.
  now destruct (py_isspace a).
Qed.

Lemma all_space_rev (s : string) : all_space (String.rev s) = all_space s.
Proof.
  induction s as [|a s IH]; [reflexivity|].
  rewrite string_rev_cons, all_space_app, IH. cbn [all_space].
  destruct (py_isspace a), (all_space s); reflexivity.
Qed.

Lemma lstrip_space_app (l s : string) :
  all_space l = true → lstrip (l +:+ s) = lstrip s.
Proof.
  induction l as [|a l IH]; intros H; [reflexivity|].
  cbn [all_space] in H. apply andb_true_iff in H as [Ha Hl].
  rewrite string_app_cons. cbn [lstrip]. rewrite Ha. now apply IH.
Qed.

Lemma lstrip_all_space (s : string) : all_space s = true → lstrip s = ""%string.
Proof.
  intros H. rewrite <- (string_app_nil_r s). now rewrite lstrip_space_app.
Qed.

Lemma lstrip_app_space (s r : string) :
  all_space r = true →
  lstrip (s +:+ r) = if decide (lstrip s = ""%string) then ""%string
                     else lstrip s +:+ r.
Proof.
  intros Hr. induction s as [|a s IH].
  - rewrite string_app_nil_l. cbn [lstrip].
    rewrite decide_True by reflexivity. now apply lstrip_all_space.
  - rewrite string_app_cons. cbn [lstrip]. destruct (py_isspace a); [exact IH|].
    now rewrite decide_False by discriminate.
Qed.

Lemma strip_padding (l s r : string) :
  all_space l = true → all_space r = true → strip (l +:+ s +:+ r) = strip s.
Proof.
  intros Hl Hr. unfold strip.
  rewrite lstrip_space_app by exact Hl.
  rewrite lstrip_app_space by exact Hr.
  destruct (decide (lstrip s = ""%string)) as [E|E]; [now rewrite E|].
  rewrite string_rev_app, lstrip_space_app; [reflexivity|].
  now rewrite all_space_rev.
Qed.

(** X6: [safe_float] does not see white space around the text of a
    cell: a padded cell gives what the bare cell gives, and a cell of
    white space only is an absent value, for which [float] is not
    called. *)
Theorem safe_float_ignores_padding (l s r : string) :
  all_space l = true → all_space r = true →
  safe_float (CStr (l +:+ s +:+ r)) = safe_float (CStr s)
  ∧ safe_float (CStr (l +:+ r)) = Ret None.
Proof.
  intros Hl Hr. split.
  - unfold safe_float. now rewrite strip_padding.
  - pose proof (strip_padding l "" r Hl Hr) as H.
    rewrite string_app_nil_l in H. unfold safe_float. rewrite H.
    now rewrite decide_True.
Qed.

(** ** Further properties of the rows that the loader returns *)

Lemma dict_lookup_set d k v k' :
  dict_lookup (dict_set d k v) k'
  = if decide (k = k') then Some v else dict_lookup d k'.
Proof.
  induction d as [|[k0 v0] d IH]; cbn [dict_set dict_lookup].
  - reflexivity.
  - destruct (decide (k0 = k)) as [->|Hne]; cbn [dict_lookup].
    + destruct (decide (k = k')); reflexivity.
    + rewrite IH. destruct (decide (k0 = k')) as [->|]; [|reflexivity].
      now rewrite decide_False.
Qed.

Lemma dict_keys_set_eq d k v :
  dict_keys (dict_set d k v)
  = if decide (k ∈ dict_keys d) then dict_keys d else dict_keys d ++ [k].
Proof.
  unfold dict_keys. induction d as [|[k0 v0] d IH]; cbn [dict_set fmap list_fmap fst].
  - rewrite decide_False; [reflexivity|]. apply not_elem_of_nil.
  - destruct (decide (k0 = k)) as [->|Hne]; cbn [fmap list_fmap fst].
    + rewrite decide_True; [reflexivity|]. left.
    + rewrite IH. destruct (decide (k ∈ d.*1)) as [Hin|Hin].
      * rewrite decide_True; [reflexivity|]. now right.
      * rewrite decide_False; [reflexivity|].
        rewrite elem_of_cons. intros [->|H]; [congruence|contradiction].
Qed.

Lemma reader_dict_nil : reader_dict [].
Proof. split; [constructor|]. intros c l. discriminate. Qed.

Lemma reader_dict_set d k v :
  reader_dict d → (k = None ∨ ∀ l, v ≠ CList l) → reader_dict (dict_set d k v).
Proof.
  intros [Hnd Hv] Hkv. split.
  - rewrite dict_keys_set_eq. destruct (decide _) as [Hin|Hin]; [exact Hnd|].
    apply NoDup_app. split; [exact Hnd|]. split; [|apply NoDup_singleton].
    intros x Hx Hk. apply list_elem_of_singleton in Hk as ->. contradiction.
  - intros c l. rewrite dict_lookup_set.
    case_decide as Hk; [|apply Hv]. subst k.
    destruct Hkv as [H|H]; [discriminate|]. intros E. injection E as ->.
    now apply (H l).
Qed.

Lemma reader_dict_pairs kvs :
  ∀ acc, reader_dict acc → Forall (λ kv : key * cell, ∀ l, kv.2 ≠ CList l) kvs →
    reader_dict (foldl (λ d kv, dict_set d kv.1 kv.2) acc kvs).
Proof.
  induction kvs as [|kv kvs IH]; intros acc Hacc Hall; [exact Hacc|].
  inversion Hall; subst. cbn [foldl]. apply IH; [|assumption].
  apply reader_dict_set; [exact Hacc|now right].
Qed.

Lemma reader_dict_fill ks :
  ∀ d, reader_dict d →
    reader_dict (foldl (λ d k, dict_set d (Some k) CNone) d ks).
Proof.
  induction ks as [|k ks IH]; intros d Hd; [exact Hd|].
  cbn [foldl]. apply IH. apply reader_dict_set; [exact Hd|].
  right. intros l. discriminate.
Qed.

Lemma reader_row_dict hdr r : reader_dict (reader_row hdr r).
Proof.
  assert (H0 : reader_dict
                 (dict_of_pairs (zip (Some <$> hdr) (CStr <$> r)))).
  { apply reader_dict_pairs; [apply reader_dict_nil|].
    apply Forall_forall. intros [k v] Hkv l. cbn.
    apply elem_of_zip_r in Hkv.
    apply list_elem_of_fmap in Hkv as (x & -> & _). discriminate. }
  unfold reader_row. cbv zeta.
  destruct (_ <? _)%nat; [|destruct (_ <? _)%nat].
  - apply reader_dict_set; [exact H0|now left].
  - now apply reader_dict_fill.
  - exact H0.
Qed.

Lemma dict_keys_pairs_iff kvs k :
  ∀ acc, k ∈ dict_keys (foldl (λ d kv, dict_set d kv.1 kv.2) acc kvs)
         ↔ k ∈ dict_keys acc ∨ k ∈ kvs.*1.
Proof.
  clear. induction kvs as [|[k0 v0] kvs IH]; intros acc; cbn [foldl fmap list_fmap].
  - rewrite elem_of_nil. tauto.
  - rewrite IH, dict_keys_set, elem_of_cons. cbn. tauto.
Qed.

Lemma dict_keys_fill_iff ks k :
  ∀ d, k ∈ dict_keys (foldl (λ d k, dict_set d (Some k) CNone) d ks)
       ↔ k ∈ dict_keys d ∨ k ∈ (Some <$> ks : list key).
Proof.
  clear. induction ks as [|k0 ks IH]; intros d; cbn [foldl].
  - rewrite fmap_nil, elem_of_nil. tauto.
  - rewrite IH, dict_keys_set, fmap_cons, elem_of_cons. tauto.
Qed.

(** Every column of the header is a key of the row, also when the
    record is shorter than the header. *)
Lemma reader_row_has_columns hdr r c :
  c ∈ hdr → Some c ∈ dict_keys (reader_row hdr r).
Proof.
  intros Hc. apply list_elem_of_lookup in Hc as [i Hi].
  assert (Hzip : (i < length r)%nat →
            Some c ∈ dict_keys (dict_of_pairs (zip (Some <$> hdr) (CStr <$> r)))).
  { intros Hlt. unfold dict_of_pairs. apply dict_keys_pairs_iff. right.
    apply lookup_lt_is_Some_2 in Hlt as [x Hx].
    apply (list_elem_of_fmap_2' fst _ (Some c, CStr x)); [|reflexivity].
    apply (elem_of_lookup_zip_with_2 pair _ _ (Some c) (CStr x) (Some c, CStr x) i).
    - now rewrite list_lookup_fmap, Hi.
    - now rewrite list_lookup_fmap, Hx. }
  pose proof (lookup_lt_Some _ _ _ Hi) as Hlen.
  unfold reader_row. cbv zeta.
  destruct (length hdr <? length r)%nat eqn:E1;
    [|destruct (length r <? length hdr)%nat eqn:E2].
  - apply Nat.ltb_lt in E1. apply dict_keys_set. right. apply Hzip. lia.
  - apply dict_keys_fill_iff.
    destruct (decide (i < length r)%nat) as [Hlt|Hge]; [left; now apply Hzip|].
    right. apply list_elem_of_fmap_2. apply list_elem_of_lookup.
    exists (i - length r)%nat. rewrite lookup_drop.
    replace (length r + (i - length r))%nat with i by lia. exact Hi.
  - apply Nat.ltb_ge in E1, E2. apply Hzip. lia.
Qed.

(** X7: when [read_all_rows] returns, the file has a non-empty header
    and at least one non-blank record; the result has one row per
    non-blank record, in order; and every row has each column of the
    header among its keys, no key twice, and under a column name a string
    or [None], never a list. *)
Theorem read_all_rows_rows (path : string) (w : world) (rows : list pydict) :
  (read_all_rows path w).1 = Ret rows →
  ∃ hdr raw,
    files w !! path = Some (hdr :: raw)
    ∧ hdr ≠ []
    ∧ rows = reader_row hdr <$> nonblank raw
    ∧ rows ≠ []
    ∧ Forall (λ row,
        NoDup (dict_keys row)
        ∧ (∀ c, c ∈ hdr → Some c ∈ dict_keys row)
        ∧ (∀ c l, dict_get row (Some c) CNone ≠ CList l)) rows.
Proof.
  rewrite read_all_rows_run. cbn [fst].
  destruct (files w !! path) as [[|hdr raw]|]; try discriminate.
  cbn [reader_fieldnames head tail].
  destruct hdr as [|c0 hdr]; [discriminate|].
  destruct (reader_rows (c0 :: hdr) raw) as [|row0 rows'] eqn:Hr; [discriminate|].
  intros [= <-]. exists (c0 :: hdr), raw.
  split; [reflexivity|]. split; [discriminate|]. split; [symmetry; exact Hr|].
  split; [discriminate|]. rewrite <- Hr. unfold reader_rows.
  apply Forall_fmap, Forall_forall. intros r _. cbn.
  destruct (reader_row_dict (c0 :: hdr) r) as [Hnd Hv].
  split; [exact Hnd|]. split; [intros c Hc; now apply reader_row_has_columns|].
  intros c l. unfold dict_get.
  destruct (dict_lookup _ (Some c)) as [v|] eqn:E; cbn; [|discriminate].
  intros ->. now apply (Hv c l).
Qed.

(** ** Further properties of a run *)

(** The state in which the loop starts: the output holds the header and
    the start message is printed. *)
Lemma main_replay_run args w row0 rows :
  Qle_bool (speed args) 0 = false →
  (read_all_rows (input args) w).1 = Ret (row0 :: rows) →
  Some "time"%string ∈ dict_keys row0 →
  let fieldnames := dict_keys row0 in
  let out := output args in
  let w2 :=
    World (<[out := [header_text fieldnames]]> (files w))
      (trace w ++ [Mkdir out; OpenW out]
         ++ row_events out (header_text fieldnames)
         ++ [Stdout (MsgStarting (input args) out (speed args))]) in
  main args w =
  match replay_rows out fieldnames (speed args) (row0 :: rows) None w2 with
  | (Ret _, w3) => (Ret 0, World (files w3) (trace w3 ++ [Stdout MsgEnd]))
  | (Raise e, w3) => (Raise e, w3)
  end.
Proof.
  intros Hs Hread Htime fieldnames out.
  rewrite main_run, Hs.
  assert (Hin : is_Some (files w !! input args)).
  { rewrite read_all_rows_run in Hread. cbn [fst] in Hread.
    destruct (files w !! input args); [eauto|discriminate]. }
  destruct Hin as [recs0 Hin]. rewrite Hin. cbv zeta.
  destruct w as [fs tr]. cbn [files trace] in *.
  rewrite (read_all_rows_outcome_trace _ _ _ tr), Hread.
  rewrite bool_decide_eq_false_2 by (intros H; now apply H).
  fold fieldnames. fold out.
  destruct (header_dict_ok fieldnames) as [cells Hcells].
  rewrite Hcells.
  assert (Hhdr : cell_text <$> cells = header_text fieldnames).
  { unfold header_text. symmetry. now apply row_text_ret. }
  rewrite Hhdr. reflexivity.
Qed.

Lemma read_all_rows_nonempty path w : (read_all_rows path w).1 ≠ Ret [].
Proof.
  rewrite read_all_rows_run. cbn [fst].
  destruct (files w !! path) as [recs|]; [|discriminate].
  destruct (reader_fieldnames recs) as [[|c hdr]|]; try discriminate.
  destruct (reader_rows _ _); discriminate.
Qed.


(** The five ways through [main]. *)
Lemma main_split args w :
  let out := output args in
  main args w = (Ret 2, World (files w) (trace w ++ [Stderr MsgSpeed]))
  ∨ main args w
    = (Ret 2, World (files w) (trace w ++ [Stderr (MsgNotFound (input args))]))
  ∨ (∃ e, main args w
          = (Ret 2, World (files w)
                      (trace w ++ [Mkdir out; Stderr (MsgReadFailed e)])))
  ∨ main args w
    = (Ret 2, World (files w) (trace w ++ [Mkdir out; Stderr MsgNoTime]))
  ∨ ∃ row0 rows,
      Qle_bool (speed args) 0 = false
      ∧ (read_all_rows (input args) w).1 = Ret (row0 :: rows)
      ∧ Some "time"%string ∈ dict_keys row0.
Proof.
  cbv zeta. destruct (Qle_bool (speed args) 0) eqn:Hs.
  { left. now rewrite main_run, Hs. }
  destruct (files w !! input args) as [recs0|] eqn:Hin.
  2:{ right. left. now rewrite main_run, Hs, Hin. }
  destruct (read_all_rows (input args) w).1 as [[|row0 rows]|e] eqn:Hread.
  - now apply read_all_rows_nonempty in Hread.
  - destruct (decide (Some "time"%string ∈ dict_keys row0)) as [Ht|Ht].
    + do 4 right. eauto.
    + do 3 right. left. rewrite main_run, Hs, Hin. cbv zeta.
      destruct w as [fs tr]. cbn [files trace] in *.
      rewrite (read_all_rows_outcome_trace _ _ _ tr), Hread.
      now rewrite bool_decide_eq_true_2 by exact Ht.
  - do 2 right. left. exists e. rewrite main_run, Hs, Hin. cbv zeta.
    destruct w as [fs tr]. cbn [files trace] in *.
    now rewrite (read_all_rows_outcome_trace _ _ _ tr), Hread.
Qed.




(** X9: no run touches a file other than the output: whatever the
    arguments, the world and the way the run ends, every other path holds
    afterwards what it held before (the input too, unless it is the
    output). *)
Theorem only_output_changes (args : Args) (w : world) (p : string) :
  p ≠ output args →
  files (main args w).2 !! p = files w !! p.
Proof.
  intros Hp.
  destruct (main_split args w)
    as [H|[H|[[e H]|[H|(row0 & rows & Hs & Hread & Ht)]]]];
    try (now rewrite H).
  destruct (main_replay args w row0 rows Hs Hread Ht) as (k & evs & Hf & _).
  rewrite Hf. apply lookup_insert_ne. congruence.
Qed.

Lemma main_valid_run args w hdr raw :
  (0 < speed args)%Q →
  files w !! input args = Some (hdr :: raw) →
  valid_dataset hdr (nonblank raw) →
  let out := output args in
  let w2 :=
    World (<[out := [hdr]]> (files w))
      (trace w ++ [Mkdir out; OpenW out] ++ row_events out hdr
         ++ [Stdout (MsgStarting (input args) out (speed args))]) in
  main args w =
  match replay_rows out (columns hdr) (speed args)
          (row_of hdr <$> nonblank raw) None w2 with
  | (Ret _, w3) => (Ret 0, World (files w3) (trace w3 ++ [Stdout MsgEnd]))
  | (Raise e, w3) => (Raise e, w3)
  end.
Proof.
  intros Hs Hin Hv out. pose proof Hv as (Hnd & Ht & Hne & Hall).
  pose proof (read_all_rows_valid _ _ _ _ Hin Hv) as Hread.
  apply (f_equal fst) in Hread. cbn [fst] in Hread.
  destruct (nonblank raw) as [|r recs]; [congruence|].
  rewrite fmap_cons in *.
  assert (Hlen : length r = length hdr) by now inversion Hall.
  assert (Hsp : Qle_bool (speed args) 0 = false).
  { apply not_true_iff_false. rewrite Qle_bool_iff. lra. }
  assert (Htime : Some "time"%string ∈ dict_keys (row_of hdr r)).
  { rewrite dict_keys_row_of by exact Hlen. unfold columns.
    apply list_elem_of_fmap. eauto. }
  rewrite (main_replay_run args w _ _ Hsp Hread Htime). cbv zeta.
  rewrite dict_keys_row_of by exact Hlen.
  assert (Hh : header_text (columns hdr) = hdr).
  { unfold header_text. now apply header_text_valid. }
  rewrite Hh. reflexivity.
Qed.



(** X11: the first data row is never delayed: on a valid dataset it is
    appended, flushed and synced right after the start message, with no
    sleep before it, whatever its time cell holds and however the run
    ends afterwards. *)
Theorem first_row_immediate (args : Args) (w : world)
    (hdr r1 : list string) (raw rest : list (list string)) :
  (0 < speed args)%Q →
  files w !! input args = Some (hdr :: raw) →
  valid_dataset hdr (nonblank raw) →
  nonblank raw = r1 :: rest →
  let out := output args in
  ∃ later,
    trace (main args w).2
    = trace w ++ [Mkdir out; OpenW out] ++ row_events out hdr
        ++ [Stdout (MsgStarting (input args) out (speed args))]
        ++ row_events out r1 ++ later.
Proof.
  intros Hs Hin Hv Hraw out.
  rewrite (main_valid_run args w hdr raw Hs Hin Hv). cbv zeta. fold out.
  destruct Hv as (Hnd & Ht & _ & Hall). rewrite Hraw in *.
  assert (Hlen : length r1 = length hdr) by now inversion Hall.
  rewrite fmap_cons, replay_rows_cons.
  destruct (safe_float_valid hdr r1 Hlen Ht) as [t Hcurr]. rewrite Hcurr.
  cbv zeta. cbn [compute_sleep_s]. change (Qltb 0 0) with false. cbn [andb].
  rewrite dict_to_list_valid, cell_text_CStr by assumption. cbn [files trace].
  match goal with |- context [replay_rows ?o ?f ?s ?rs ?pv ?w3] =>
    destruct (replay_rows_effects o f s rs pv w3) as (k & evs & Hw & _);
    destruct (replay_rows o f s rs pv w3) as [[[]|e] w4]
  end; cbn [fst snd] in *; subst w4; cbn [files trace].
  - exists (evs ++ [Stdout MsgEnd]). unfold row_events.
    rewrite <- !app_assoc. reflexivity.
  - exists evs. unfold row_events. rewrite <- !app_assoc. reflexivity.
Qed.





Lemma stdout_of_app evs1 evs2 :
  stdout_of (evs1 ++ evs2) = stdout_of evs1 ++ stdout_of evs2.
Proof.
  unfold stdout_of. induction evs1 as [|e evs1 IH]; [reflexivity|].
  cbn. destruct e; cbn; now rewrite ?IH.
Qed.

Lemma stderr_of_app evs1 evs2 :
  stderr_of (evs1 ++ evs2) = stderr_of evs1 ++ stderr_of evs2.
Proof.
  unfold stderr_of. induction evs1 as [|e evs1 IH]; [reflexivity|].
  cbn. destruct e; cbn; now rewrite ?IH.
Qed.

(** The loop prints nothing. *)
Lemma replay_rows_silent out fieldnames s rows :
  ∀ prev w,
    stdout_of (trace (replay_rows out fieldnames s rows prev w).2)
      = stdout_of (trace w)
    ∧ stderr_of (trace (replay_rows out fieldnames s rows prev w).2)
      = stderr_of (trace w).
Proof.
  induction rows as [|row rows IH]; intros prev w; [now split|].
  rewrite replay_rows_cons.
  destruct (safe_float _) as [curr|e]; [|now split].
  cbv zeta. set (d := compute_sleep_s prev curr s).
  assert (Hq : stdout_of (if Qltb 0 d then trace w ++ [Sleep d] else trace w)
               = stdout_of (trace w)
             ∧ stderr_of (if Qltb 0 d then trace w ++ [Sleep d] else trace w)
               = stderr_of (trace w)).
  { destruct (Qltb 0 d); [|now split].
    rewrite stdout_of_app, stderr_of_app. cbn. now rewrite !app_nil_r. }
  destruct Hq as [Hq1 Hq2].
  destruct (_ && _); [now split|].
  destruct (dict_to_list fieldnames row) as [cells|e]; [|now split].
  match goal with |- context [replay_rows _ _ _ rows curr ?w1] =>
    destruct (IH curr w1) as [H1 H2] end.
  rewrite H1, H2. cbn [trace].
  rewrite !stdout_of_app, !stderr_of_app, Hq1, Hq2. cbn.
  now rewrite !app_nil_r.
Qed.

(** X13: what [main] prints, by the way it ends: a run that returns 0
    prints the start and the end message on the normal stream and nothing
    on the error stream; a run that returns 2 prints one diagnostic on
    the error stream and nothing on the normal stream; a run that an
    exception stops has printed the start message only. *)
Theorem streams_by_outcome (args : Args) (w : world) :
  let r := main args w in
  let starting := MsgStarting (input args) (output args) (speed args) in
  (r.1 = Ret 0 →
     stdout_of (trace r.2) = stdout_of (trace w) ++ [starting; MsgEnd]
     ∧ stderr_of (trace r.2) = stderr_of (trace w))
  ∧ (r.1 = Ret 2 →
     stdout_of (trace r.2) = stdout_of (trace w)
     ∧ ∃ m, stderr_of (trace r.2) = stderr_of (trace w) ++ [m])
  ∧ (∀ e, r.1 = Raise e →
     stdout_of (trace r.2) = stdout_of (trace w) ++ [starting]
     ∧ stderr_of (trace r.2) = stderr_of (trace w)).
Proof.
  cbv zeta.
  destruct (main_split args w)
    as [H|[H|[[e H]|[H|(row0 & rows & Hs & Hread & Ht)]]]].
  1-4: rewrite H; cbn [fst snd trace];
    (split; [discriminate|]); (split; [|discriminate]); intros _;
    rewrite stdout_of_app, stderr_of_app; cbn; rewrite app_nil_r; eauto.
  rewrite (main_replay_run args w row0 rows Hs Hread Ht). cbv zeta.
  match goal with |- context [replay_rows ?o ?f ?s ?rs None ?w2] =>
    destruct (replay_rows_silent o f s rs None w2) as [H1 H2];
    destruct (replay_rows o f s rs None w2) as [[[]|e] w3]
  end; cbn [fst snd trace] in *.
  - split; [|split; [discriminate|discriminate]]. intros _.
    rewrite stdout_of_app, stderr_of_app, H1, H2.
    rewrite !stdout_of_app, !stderr_of_app. cbn.
    rewrite !app_nil_r, <- app_assoc. now split.
  - split; [discriminate|]. split; [discriminate|]. intros e' _.
    rewrite H1, H2, !stdout_of_app, !stderr_of_app. cbn.
    rewrite !app_nil_r. now split.
Qed.

(** X14: a replay is idempotent on the files: after a completed replay
    of a valid dataset into another path, a second completed run with the
    same arguments leaves every file as the first run left it. *)
Theorem rerun_idempotent (args : Args) (w w1 w2 : world)
    (hdr : list string) (raw : list (list string)) :
  input args ≠ output args →
  files w !! input args = Some (hdr :: raw) →
  valid_dataset hdr (nonblank raw) →
  main args w = (Ret 0, w1) →
  main args w1 = (Ret 0, w2) →
  files w2 = files w1.
Proof.
  intros Hne Hin Hv H1 H2.
  pose proof (positive_speed_of_completed _ _ _ H1) as Hs.
  destruct (main_valid args w hdr raw Hs Hin Hv) as (k1 & e1 & Hf1 & _ & _ & Hk1 & _).
  rewrite H1 in Hf1, Hk1. cbn [fst snd] in *.
  rewrite (Hk1 eq_refl), firstn_all in Hf1.
  assert (Hin1 : files w1 !! input args = Some (hdr :: raw)).
  { rewrite Hf1, lookup_insert_ne by congruence. exact Hin. }
  destruct (main_valid args w1 hdr raw Hs Hin1 Hv) as (k2 & e2 & Hf2 & _ & _ & Hk2 & _).
  rewrite H2 in Hf2, Hk2. cbn [fst snd] in *.
  rewrite (Hk2 eq_refl), firstn_all in Hf2.
  rewrite Hf2, Hf1. apply insert_insert_eq.
Qed.


(** ** Records that are shorter or longer than the header *)

Lemma foldl_fill_pairs ks :
  ∀ d, foldl (λ d k, dict_set d (Some k) CNone) d ks
       = foldl (λ d kv, dict_set d kv.1 kv.2) d ((λ k, (Some k, CNone)) <$> ks).
Proof.
  induction ks as [|k ks IH]; intros d; [reflexivity|].
  rewrite fmap_cons. cbn [foldl fst snd]. apply IH.
Qed.

(** [DictReader] on a record that is not longer than a header of unique
    names: the cells in the order of the header, [None] for those that the
    record lacks. *)
Lemma reader_row_short (hdr r : list string) :
  NoDup hdr → (length r ≤ length hdr)%nat →
  reader_row hdr r
  = zip (columns hdr) ((CStr <$> r) ++ replicate (length hdr - length r) CNone).
Proof.
  intros Hnd Hlen.
  pose proof (NoDup_columns hdr Hnd) as Hcols.
  assert (Hsplit : columns hdr
                   = take (length r) (columns hdr) ++ drop (length r) (columns hdr))
    by (symmetry; apply take_drop).
  assert (Hlt : length (take (length r) (columns hdr)) = length (CStr <$> r)).
  { rewrite length_take, length_columns, length_fmap. lia. }
  assert (Hz : zip (Some <$> hdr) (CStr <$> r)
               = zip (take (length r) (columns hdr)) (CStr <$> r)).
  { rewrite <- (zip_with_take_l pair (columns hdr) (CStr <$> r)).
    now rewrite length_fmap. }
  assert (Hk : (zip (take (length r) (columns hdr)) (CStr <$> r)).*1
               = take (length r) (columns hdr)).
  { apply fst_zip. lia. }
  rewrite Hsplit in Hcols. apply NoDup_app in Hcols as (Hnd1 & Hdisj & Hnd2).
  assert (Hd0 : dict_of_pairs (zip (Some <$> hdr) (CStr <$> r))
                = zip (take (length r) (columns hdr)) (CStr <$> r)).
  { rewrite Hz. apply dict_of_pairs_nodup. now rewrite Hk. }
  assert (Hrhs : zip (columns hdr)
                   ((CStr <$> r) ++ replicate (length hdr - length r) CNone)
                 = zip (take (length r) (columns hdr)) (CStr <$> r)
                   ++ ((λ k, (Some k, CNone)) <$> drop (length r) hdr)).
  { rewrite Hsplit at 1. rewrite zip_with_app by exact Hlt. f_equal.
    rewrite zip_with_replicate_r.
    - unfold columns. rewrite <- fmap_drop, <- list_fmap_compose. reflexivity.
    - rewrite length_drop, length_columns. lia. }
  unfold reader_row. cbv zeta.
  replace (length hdr <? length r)%nat with false
    by (symmetry; apply Nat.ltb_ge; lia).
  rewrite Hd0, Hrhs. destruct (length r <? length hdr)%nat eqn:E.
  - rewrite foldl_fill_pairs. apply foldl_dict_set_fresh.
    unfold dict_keys. rewrite Hk, <- list_fmap_compose.
    change (fst ∘ (λ k : string, (Some k, CNone))) with (@Some string).
    rewrite fmap_drop. fold (columns hdr).
    apply NoDup_app. auto.
  - apply Nat.ltb_ge in E. assert (Hr : length r = length hdr) by lia.
    rewrite Hr, drop_all, fmap_nil. now rewrite app_nil_r.
Qed.

Lemma dict_to_list_zip (ks : list key) (vs : list cell) :
  NoDup ks → length ks = length vs → dict_to_list ks (zip ks vs) = Ret vs.
Proof.
  intros Hnd Hlen. unfold dict_to_list, dict_keys. cbv zeta.
  rewrite fst_zip by lia.
  rewrite filter_wrong_fields_nil by reflexivity.
  f_equal. now apply dict_get_zip.
Qed.

Lemma dict_lookup_zip_index (ks : list key) (vs : list cell) i k v :
  NoDup ks → ks !! i = Some k → vs !! i = Some v →
  dict_lookup (zip ks vs) k = Some v.
Proof.
  intros Hnd. revert vs i. induction Hnd as [|k0 ks Hk0 Hnd IH]; intros vs i Hk Hv.
  - discriminate.
  - destruct vs as [|v0 vs]; [now destruct i|].
    cbn [zip_with dict_lookup]. destruct i as [|i]; cbn in Hk, Hv.
    + injection Hk as ->. injection Hv as ->. now rewrite decide_True.
    + rewrite decide_False; [now apply (IH vs i)|].
      intros ->. apply Hk0. now apply list_elem_of_lookup_2 in Hk.
Qed.

(** X16: a record with fewer fields than a header of unique names is
    not an error.  The row built from it has the header's columns as its
    keys (so, as a first row, it gives the writer the header's field
    names); it is written padded with empty cells up to the length of the
    header; and when the "time" column is among the missing cells its
    pacing value is absent. *)
Theorem short_record_padded (hdr r : list string) (i : nat) :
  NoDup hdr → (length r ≤ length hdr)%nat →
  dict_keys (reader_row hdr r) = columns hdr
  ∧ row_text (columns hdr) (reader_row hdr r)
    = r ++ replicate (length hdr - length r) ""%string
  ∧ (hdr !! i = Some "time"%string → (length r ≤ i)%nat →
     row_time (reader_row hdr r) = Ret None).
Proof.
  intros Hnd Hlen. rewrite (reader_row_short hdr r Hnd Hlen).
  assert (Hl : length (columns hdr)
               = length ((CStr <$> r) ++ replicate (length hdr - length r) CNone)).
  { rewrite length_columns, length_app, length_fmap, length_replicate. lia. }
  split; [|split].
  - unfold dict_keys. apply fst_zip. lia.
  - unfold row_text.
    rewrite dict_to_list_zip by (auto using NoDup_columns).
    rewrite fmap_app, cell_text_CStr, fmap_replicate. reflexivity.
  - intros Hi Hge. unfold row_time, dict_get.
    rewrite (dict_lookup_zip_index _ _ i (Some "time"%string) CNone).
    + reflexivity.
    + now apply NoDup_columns.
    + unfold columns. now rewrite list_lookup_fmap, Hi.
    + rewrite lookup_app_r by (rewrite length_fmap; lia).
      apply lookup_replicate_2. rewrite length_fmap.
      apply lookup_lt_Some in Hi. lia.
Qed.












End Replayer.

(** ** The model at work *)

(** The scenario of the specification at speed 1: pauses of 1 and 2
    seconds, three rows appended after the header, the stale record gone. *)
Example scenario_run :
  let r := main decimal_float show_list sleep_always (demo_args 1) demo_world in
  r.1 = Ret 0
  ∧ trace r.2
    = [Mkdir "data/live.csv"; OpenW "data/live.csv";
       WriteRec "data/live.csv" ["time"; "ch1"];
       Flush "data/live.csv"; Fsync "data/live.csv";
       Stdout (MsgStarting "data/historical.csv" "data/live.csv" 1);
       WriteRec "data/live.csv" ["0"; "1"];
       Flush "data/live.csv"; Fsync "data/live.csv";
       Sleep 1;
       WriteRec "data/live.csv" ["1"; "2"];
       Flush "data/live.csv"; Fsync "data/live.csv";
       Sleep 2;
       WriteRec "data/live.csv" ["3"; "3"];
       Flush "data/live.csv"; Fsync "data/live.csv";
       Stdout MsgEnd]
  ∧ files r.2 !! "data/live.csv"%string = Some (demo_header :: demo_rows).
Proof. vm_compute. repeat split. Qed.

(** A sleep that the platform refuses stops the run with the rows written
    so far in place. *)
Example refused_sleep_aborts :
  let r := main decimal_float show_list (sleep_within 1) (demo_args 1) demo_world in
  r.1 = Raise OverflowError
  ∧ files r.2 !! "data/live.csv"%string
    = Some [["time"; "ch1"]; ["0"; "1"]; ["1"; "2"]].
Proof. vm_compute. repeat split. Qed.

(** An unreadable time removes the pause before its row and before the
    next one. *)
Example gappy_run :
  filter (λ e, is_sleep e = true)
    (trace (main decimal_float show_list sleep_always (demo_args 1) gappy_world).2)
  = [Sleep 2].
Proof. vm_compute. reflexivity. Qed.

Lemma demo_valid : valid_dataset demo_header demo_rows.
Proof.
  unfold valid_dataset, demo_header, demo_rows.
  split; [|split; [|split]].
  - apply NoDup_cons. split; [|apply NoDup_singleton].
    rewrite list_elem_of_singleton. discriminate.
  - apply elem_of_cons. now left.
  - discriminate.
  - repeat constructor.
Qed.

Lemma demo_completes s :
  (0 < s)%Q →
  main decimal_float show_list sleep_always (demo_args s) demo_world
  = (Ret 0, (main decimal_float show_list sleep_always (demo_args s) demo_world).2).
Proof.
  intros Hs. rewrite (surjective_pairing (main _ _ _ _ _)) at 1. f_equal.
  apply (main_completes _ _ _ _ _ demo_header demo_rows);
    [exact Hs|reflexivity|apply demo_valid|reflexivity].
Qed.

(** ** Witnesses *)

Lemma delay_formula_clamped_witness :
  (compute_sleep_s (Some 0) (Some 3) 2 == Qmax 0 (3 - 0) / 2)%Q.
Proof.
  refine (proj1 (delay_formula_clamped (Some 0%Q) (Some 3%Q) 2 _) _).
  - reflexivity.
  - discriminate.
Defined.

Lemma replay_preserves_rows_witness :
  files (main decimal_float show_list sleep_always (demo_args 1) demo_world).2
  = <["data/live.csv"%string := demo_header :: demo_rows]> (files demo_world).
Proof.
  refine (proj1 (replay_preserves_rows decimal_float show_list sleep_always
                   (demo_args 1) demo_world _ demo_header demo_rows _ _ _)).
  - reflexivity.
  - exact demo_valid.
  - apply demo_completes. reflexivity.
Defined.

Lemma header_written_first_witness :
  ∃ (k : nat) (rest : list event),
    trace (main decimal_float show_list (sleep_within 1) (demo_args 1) demo_world).2
    = [] ++ [Mkdir "data/live.csv"; OpenW "data/live.csv";
             WriteRec "data/live.csv" demo_header;
             Flush "data/live.csv"; Fsync "data/live.csv"] ++ rest
    ∧ Forall (λ e, ∀ p, e ≠ OpenW p) rest
    ∧ files (main decimal_float show_list (sleep_within 1) (demo_args 1) demo_world).2
        !! "data/live.csv"%string
      = Some (demo_header :: take k demo_rows).
Proof.
  refine (header_written_first decimal_float show_list (sleep_within 1)
            (demo_args 1) demo_world demo_header demo_rows _ _ _).
  - reflexivity.
  - reflexivity.
  - exact demo_valid.
Defined.

Lemma unreadable_time_degrades_witness :
  replay_rows decimal_float show_list sleep_always "live.csv"
    (columns demo_header) 1
    [row_of demo_header ["n/a"; "2"]; row_of demo_header ["3"; "3"]]
    (Some 0%Q) (World (<["live.csv"%string := [demo_header]]> ∅) [])
  = (Ret tt,
     World (alter (λ c, c ++ [["n/a"; "2"]; ["3"; "3"]]) "live.csv"
              (<["live.csv"%string := [demo_header]]> ∅))
           ([] ++ row_events "live.csv" ["n/a"; "2"]
               ++ row_events "live.csv" ["3"; "3"])).
Proof.
  refine (proj2 (proj2 (proj2
    (unreadable_time_degrades decimal_float show_list sleep_always "live.csv"
       (columns demo_header) 1
       (row_of demo_header ["n/a"; "2"]) (row_of demo_header ["3"; "3"]) []
       (Some 0%Q) (Some 3%Q) [CStr "n/a"; CStr "2"] [CStr "3"; CStr "3"]
       (World (<["live.csv"%string := [demo_header]]> ∅) []) _ _ _ _)))).
  - right. exists "n/a"%string. split; [reflexivity|]. right. reflexivity.
  - reflexivity.
  - reflexivity.
  - reflexivity.
Defined.

Lemma nonpositive_speed_rejected_witness :
  main decimal_float show_list sleep_always (demo_args 0) demo_world
  = (Ret 2, World (files demo_world) ([] ++ [Stderr MsgSpeed]))
  ∧ main decimal_float show_list sleep_always (demo_args (-1)) demo_world
  = (Ret 2, World (files demo_world) ([] ++ [Stderr MsgSpeed])).
Proof.
  split.
  - refine (nonpositive_speed_rejected decimal_float show_list sleep_always
              (demo_args 0) demo_world _). discriminate.
  - apply (nonpositive_speed_rejected decimal_float show_list sleep_always
             (demo_args (-1)) demo_world). discriminate.
Defined.

Lemma load_failures_abort_witness :
  main decimal_float show_list sleep_always
    {| input := "data/missing.csv"; output := "data/live.csv"; speed := 1 |}
    demo_world
  = (Ret 2, World (files demo_world)
              ([] ++ [Stderr (MsgNotFound "data/missing.csv")])).
Proof.
  refine (proj1 (load_failures_abort decimal_float show_list sleep_always
    {| input := "data/missing.csv"; output := "data/live.csv"; speed := 1 |}
    demo_world) _).
  reflexivity.
Defined.

Lemma delay_never_negative_witness :
  (0 <= compute_sleep_s (Some 3) (Some 1) 2)%Q
  ∧ (compute_sleep_s (Some 3) (Some 1) 2 == 0)%Q.
Proof.
  pose proof (delay_never_negative decimal_float show_list sleep_always
                3 1 2 eq_refl) as (H1 & H2 & _).
  split; [exact H1|]. apply H2. reflexivity.
Defined.

Lemma rerun_truncates_witness :
  files (main decimal_float show_list sleep_always (demo_args 2) demo_world).2
    !! "data/live.csv"%string
  = Some (demo_header :: demo_rows).
Proof.
  refine (proj2 (rerun_truncates decimal_float show_list sleep_always
    (demo_args 2)
    (World (<["data/historical.csv"%string := demo_header :: demo_rows]> ∅) [])
    _ (Some [["stale"; "record"]]) demo_header demo_rows _ _ _ _)).
  - discriminate.
  - reflexivity.
  - exact demo_valid.
  - vm_compute. reflexivity.
Defined.

Lemma speed_does_not_change_output_witness :
  files (main decimal_float show_list sleep_always (demo_args 1) demo_world).2
  = files (main decimal_float show_list sleep_always (demo_args 2) demo_world).2.
Proof.
  refine (proj1 (speed_does_not_change_output decimal_float show_list sleep_always
    (demo_args 1) (demo_args 2) demo_world _ _ _ _ _ _)).
  - reflexivity.
  - reflexivity.
  - apply demo_completes. reflexivity.
  - apply demo_completes. reflexivity.
Defined.

(** ** Witnesses of the further properties *)



Lemma delay_monotone_witness :
  (compute_sleep_s (Some 0) (Some 1) 2 <= compute_sleep_s (Some 1) (Some 3) 1)%Q.
Proof. apply (delay_monotone 0 1 1 3 2 1); discriminate. Defined.


Lemma safe_float_ignores_padding_witness :
  safe_float decimal_float (CStr "  1.5 ") = safe_float decimal_float (CStr "1.5")
  ∧ safe_float decimal_float (CStr "   ") = Ret None.
Proof.
  exact (safe_float_ignores_padding decimal_float "  " "1.5" " " eq_refl eq_refl).
Defined.

Lemma read_all_rows_rows_witness :
  ∃ hdr raw,
    files demo_world !! "data/historical.csv"%string = Some (hdr :: raw)
    ∧ hdr ≠ []
    ∧ (read_all_rows "data/historical.csv" demo_world).1
      = Ret (reader_row hdr <$> nonblank raw).
Proof.
  destruct (read_all_rows_rows "data/historical.csv" demo_world
              (list_fmap _ _ (row_of demo_header) demo_rows) eq_refl)
    as (hdr & raw & Hf & Hh & Hr & _).
  exists hdr, raw. split; [exact Hf|]. split; [exact Hh|].
  rewrite <- Hr. reflexivity.
Defined.

Lemma only_output_changes_witness :
  files (main decimal_float show_list sleep_always (demo_args 1) demo_world).2
    !! "data/historical.csv"%string
  = files demo_world !! "data/historical.csv"%string.
Proof.
  apply (only_output_changes decimal_float show_list sleep_always
           (demo_args 1) demo_world "data/historical.csv").
  discriminate.
Defined.


Lemma first_row_immediate_witness :
  ∃ later,
    trace (main decimal_float show_list (sleep_within 1) (demo_args 1) demo_world).2
    = [] ++ [Mkdir "data/live.csv"; OpenW "data/live.csv"]
        ++ row_events "data/live.csv" demo_header
        ++ [Stdout (MsgStarting "data/historical.csv" "data/live.csv" 1)]
        ++ row_events "data/live.csv" ["0"; "1"] ++ later.
Proof.
  refine (first_row_immediate decimal_float show_list (sleep_within 1)
            (demo_args 1) demo_world demo_header ["0"; "1"] demo_rows
            [["1"; "2"]; ["3"; "3"]] _ _ _ _).
  - reflexivity.
  - reflexivity.
  - exact demo_valid.
  - reflexivity.
Defined.


Lemma streams_by_outcome_witness :
  stdout_of (trace (main decimal_float show_list sleep_always (demo_args 0) demo_world).2)
  = stdout_of (trace demo_world)
  ∧ ∃ m, stderr_of (trace (main decimal_float show_list sleep_always
                             (demo_args 0) demo_world).2)
         = stderr_of (trace demo_world) ++ [m].
Proof.
  refine (proj1 (proj2 (streams_by_outcome decimal_float show_list sleep_always
                          (demo_args 0) demo_world)) _).
  reflexivity.
Defined.

Lemma rerun_idempotent_witness :
  ∃ w1 w2,
    main decimal_float show_list sleep_always (demo_args 1) demo_world = (Ret 0, w1)
    ∧ main decimal_float show_list sleep_always (demo_args 1) w1 = (Ret 0, w2)
    ∧ files w2 = files w1.
Proof.
  eexists _, _. split; [|split].
  - apply demo_completes. reflexivity.
  - vm_compute. reflexivity.
  - refine (rerun_idempotent decimal_float show_list sleep_always (demo_args 1)
              demo_world _ _ demo_header demo_rows _ _ _ _ _).
    + discriminate.
    + reflexivity.
    + exact demo_valid.
    + apply demo_completes. reflexivity.
    + vm_compute. reflexivity.
Defined.


Lemma short_record_padded_witness :
  row_text show_list (columns ["ch1"; "time"; "ch2"]) (reader_row ["ch1"; "time"; "ch2"] ["5"])
  = ["5"; ""; ""]
  ∧ row_time decimal_float (reader_row ["ch1"; "time"; "ch2"] ["5"]) = Ret None.
Proof.
  assert (Hnd : NoDup ["ch1"; "time"; "ch2"]%string).
  { repeat (apply NoDup_cons; split;
            [rewrite ?elem_of_cons, elem_of_nil; intuition discriminate|]).
    constructor. }
  destruct (short_record_padded decimal_float show_list
              ["ch1"; "time"; "ch2"] ["5"] 1 Hnd) as (_ & H2 & H3).
  - cbn. lia.
  - split; [exact H2|]. apply H3; [reflexivity|cbn; lia].
Defined.


